(** * MedBot Assistant front end: session store, HTTP gateway, chat views

    A shallow embedding of the stateful parts of the React/TypeScript client:

    - [store/auth.ts]             the persisted session store        ([AuthStore])
    - [api/client.ts]             the axios gateway and interceptors ([ApiClient])
    - [api/auth.ts], [api/chat.ts]   the two services                ([AuthApi], [ChatApi])
    - [pages/Chat.tsx]            the history view-model             ([ChatPage])
    - [components/ChatWindow.tsx] the conversation view-model        ([ChatWindow])

    JavaScript strings are sequences of UTF-16 code units, [null] and
    [undefined] are [None], React state is a record threaded through the
    handlers, and an awaited backend call takes the backend's answer as an
    argument.  Part I holds the definitions, Part II the properties. *)

From Stdlib Require Import List ZArith NArith Bool String Ascii Lia.
From Stdlib Require Import Sorting.Sorted Sorting.Permutation.
Import ListNotations.

Set Implicit Arguments.

(* ===================================================================== *)
(** * Part I: the program *)
(* ===================================================================== *)

(** ** JavaScript values used by the client *)

Module JS.

(** A JavaScript string: its UTF-16 code units. *)
Definition jsstring := list N.

(** ASCII literals; every character of the literal is one code unit. *)
Definition js (s : string) : jsstring :=
  List.map N_of_ascii (list_ascii_of_string s).

Definition eqb (a b : jsstring) : bool :=
  if list_eq_dec N.eq_dec a b then true else false.

(** ECMAScript WhiteSpace and LineTerminator code points, the ones that
    [String.prototype.trim] strips.  All of them are single code units. *)
Definition isWhiteSpace (c : N) : bool :=
  (existsb (N.eqb c)
     [0x09; 0x0A; 0x0B; 0x0C; 0x0D; 0x20; 0xA0; 0x1680;
      0x2028; 0x2029; 0x202F; 0x205F; 0x3000; 0xFEFF]
   || ((0x2000 <=? c) && (c <=? 0x200A)))%N.

Fixpoint trimStart (s : jsstring) : jsstring :=
  match s with
  | [] => []
  | c :: r => if isWhiteSpace c then trimStart r else s
  end.

Definition trimEnd (s : jsstring) : jsstring := rev (trimStart (rev s)).

(** [s.trim()] *)
Definition trim (s : jsstring) : jsstring := trimEnd (trimStart s).

(** Truthiness of a [string]: only the empty string is falsy. *)
Definition truthy (s : jsstring) : bool :=
  match s with [] => false | _ :: _ => true end.

(** Truthiness of a [string | null] (or [string | undefined]). *)
Definition truthy_opt (o : option jsstring) : bool :=
  match o with Some s => truthy s | None => false end.

(** [a || b] where [a] may be missing and [b] is a string. *)
Definition or_else (a : option jsstring) (b : jsstring) : jsstring :=
  match a with
  | Some s => if truthy s then s else b
  | None => b
  end.

(** [prev.slice(0, -1)]: every element but the last; the empty array stays
    empty. *)
Definition slice_0_minus1 {A : Type} (prev : list A) : list A := removelast prev.

(** [SortCompare] of [Array.prototype.sort]: the comparator's result, with
    NaN ([None]) read as +0. *)
Definition SortCompare {A : Type} (comparefn : A -> A -> option Z) (x y : A) : Z :=
  match comparefn x y with Some v => v | None => 0%Z end.

(** [Array.prototype.sort(comparefn)] as a stable insertion sort.  The
    language fixes the result for a consistent comparator (sorted, and equal
    elements keep their order); for an inconsistent one the order is
    implementation-defined and this is one admissible outcome. *)
Fixpoint sort_insert {A : Type} (comparefn : A -> A -> option Z) (x : A) (l : list A) : list A :=
  match l with
  | [] => [x]
  | y :: r =>
      if (SortCompare comparefn x y <=? 0)%Z then x :: y :: r
      else y :: sort_insert comparefn x r
  end.

Definition Array_sort {A : Type} (comparefn : A -> A -> option Z) (l : list A) : list A :=
  fold_right (sort_insert comparefn) [] l.

(** The order the comparator asks for: [x] may stand before [y]. *)
Definition before {A : Type} (comparefn : A -> A -> option Z) (x y : A) : Prop :=
  (SortCompare comparefn x y <= 0)%Z.

End JS.

Import JS.

(* --------------------------------------------------------------------- *)
(** ** store/auth.ts: the session store with its persisted record *)
(* --------------------------------------------------------------------- *)

Module AuthStore.

(** [interface AuthState] *)
Record AuthState := {
  token : option jsstring;
  username : option jsstring;
  isAuthenticated : bool
}.

(** What [partialize] keeps: the record stored under ['auth-storage']. *)
Record Persisted := {
  p_token : option jsstring;
  p_username : option jsstring
}.

(** The live store together with the browser's durable record. *)
Record Store := {
  state : AuthState;
  localStorage : option Persisted
}.

Definition initialState : AuthState :=
  {| token := None; username := None; isAuthenticated := false |}.

Definition partialize (s : AuthState) : Persisted :=
  {| p_token := token s; p_username := username s |}.

(** [set(...)] under zustand's [persist] middleware, configured with
    [name: 'auth-storage'] and [partialize]: the state is updated and
    [partialize] of the new state is written to storage. *)
Definition setState (update : AuthState -> AuthState) (st : Store) : Store :=
  let s' := update (state st) in
  {| state := s'; localStorage := Some (partialize s') |}.

Definition login (tok user : jsstring) : Store -> Store :=
  setState (fun _ =>
    {| token := Some tok; username := Some user; isAuthenticated := true |}).

Definition logout : Store -> Store :=
  setState (fun _ =>
    {| token := None; username := None; isAuthenticated := false |}).

Definition loadFromStorage (st : Store) : Store :=
  if truthy_opt (token (state st))
  then setState (fun s =>
         {| token := token s; username := username s; isAuthenticated := true |}) st
  else st.

(** Creation of the store when the page loads.  [persist] starts from the
    initial state of the creator function and merges the stored record over
    it ([{...initial, ...stored}]); the record holds [token] and [username]
    only, so [isAuthenticated] keeps its initial value. *)
Definition create (stored : option Persisted) : Store :=
  {| state :=
       match stored with
       | None => initialState
       | Some p =>
           {| token := p_token p;
              username := p_username p;
              isAuthenticated := isAuthenticated initialState |}
       end;
     localStorage := stored |}.

(** A page reload: the JavaScript heap is gone, the durable record stays. *)
Definition reload (st : Store) : Store := create (localStorage st).

(** A browser that has never stored anything. *)
Definition fresh : Store := create None.

(** The states the store can be in. *)
Inductive reachable : Store -> Prop :=
| reach_fresh : reachable fresh
| reach_login tok user st : reachable st -> reachable (login tok user st)
| reach_logout st : reachable st -> reachable (logout st)
| reach_load st : reachable st -> reachable (loadFromStorage st)
| reach_reload st : reachable st -> reachable (reload st).

(** The flag says what the token says: [isAuthenticated] is true exactly
    when [token] is not [null]. *)
Definition flagMatchesToken (s : AuthState) : Prop :=
  isAuthenticated s = true <-> token s <> None.

(** The durable record, when there is one, holds the token and the user
    name of the live state; without a record the state has neither. *)
Definition storageInSync (st : Store) : Prop :=
  match localStorage st with
  | Some p => p = partialize (state st)
  | None => token (state st) = None /\ username (state st) = None
  end.

(** The session of the scenario: a login, then a page reload. *)
Definition session_after_reload : Store :=
  reload (login (js "tok1") (js "alice") fresh).

End AuthStore.

(* --------------------------------------------------------------------- *)
(** ** Asynchronous code: state passing with exceptions *)
(* --------------------------------------------------------------------- *)

Module Async.

(** How a block of statements ends: it runs to its end with a value, or it
    throws. *)
Inductive Completion (E A : Type) :=
| Returned (a : A)
| Thrown (e : E).

Arguments Returned {E A} a.
Arguments Thrown {E A} e.

Definition Prog (S E A : Type) := S -> Completion E A * S.

Definition ret {S E A} (a : A) : Prog S E A := fun s => (Returned a, s).

Definition throw {S E A} (e : E) : Prog S E A := fun s => (Thrown e, s).

Definition bind {S E A B} (c : Prog S E A) (k : A -> Prog S E B) : Prog S E B :=
  fun s =>
    match c s with
    | (Returned a, s1) => k a s1
    | (Thrown e, s1) => (Thrown e, s1)
    end.

Definition gets {S E A} (f : S -> A) : Prog S E A := fun s => (Returned (f s), s).

Definition modify {S E} (f : S -> S) : Prog S E unit := fun s => (Returned tt, f s).

(** [try { body } catch (err) { handler err } finally { fin }] *)
Definition try_catch_finally {S E A}
    (body : Prog S E A) (handler : E -> Prog S E A) (fin : Prog S E unit) : Prog S E A :=
  fun s =>
    let '(r1, s1) := body s in
    let '(r2, s2) :=
      match r1 with
      | Returned a => (Returned a, s1)
      | Thrown e => handler e s1
      end in
    match fin s2 with
    | (Returned _, s3) => (r2, s3)
    | (Thrown e, s3) => (Thrown e, s3)
    end.

(** [try { body } catch { handler }] *)
Definition try_catch {S E A} (body : Prog S E A) (handler : E -> Prog S E A) : Prog S E A :=
  try_catch_finally body handler (ret tt).

(** Running a program on a part of the state. *)
Definition zoom {S T E A} (proj : S -> T) (inj : T -> S -> S) (c : Prog T E A) : Prog S E A :=
  fun s => let '(r, t) := c (proj s) in (r, inj t s).

(** The state a program leaves. *)
Definition exec {S E A} (c : Prog S E A) (s : S) : S := snd (c s).

Declare Scope prog_scope.
Delimit Scope prog_scope with prog.

Notation "x <- c ;; k" := (bind c (fun x => k))
  (at level 61, c at next level, right associativity) : prog_scope.
Notation "c ;; k" := (bind c (fun _ => k))
  (at level 61, right associativity) : prog_scope.

End Async.

Import Async.
Local Open Scope prog_scope.

(* --------------------------------------------------------------------- *)
(** ** api/client.ts: the axios gateway *)
(* --------------------------------------------------------------------- *)

Module ApiClient.

Inductive Method := GET | POST.

(** Request payloads written by the services: flat objects whose fields
    are strings or [null]. *)
Inductive JsonValue :=
| JNull
| JString (s : jsstring).

Inductive Json :=
| JObject (fields : list (jsstring * JsonValue)).

(** What is handed to axios as [data]: nothing, a plain object (sent as
    JSON), or a [URLSearchParams] (sent url-encoded). *)
Inductive Body :=
| NoBody
| JsonBody (data : Json)
| URLSearchParams (entries : list (jsstring * jsstring)).

(** The axios request configuration as it leaves the request interceptor. *)
Record Request := {
  method : Method;
  baseURL : jsstring;
  url : jsstring;
  timeout : Z;
  contentType : jsstring;
  authorization : option jsstring;
  body : Body
}.

(** The conventional error body: [{detail?, message?}]. *)
Record ErrorData := {
  detail : option jsstring;
  message : option jsstring
}.

(** The backend's answer to one request of payload type [T]: a response
    whose status axios accepts (2xx), a response with any other status, or
    no response at all (network failure, timeout). *)
Inductive Reply (T : Type) :=
| Fulfilled (data : T)
| Rejected (status : Z) (data : ErrorData)
| NoResponse.

Arguments Fulfilled {T} data.
Arguments Rejected {T} status data.
Arguments NoResponse {T}.

(** [AxiosError]: [error.response] is present when the backend answered. *)
Record AxiosError := {
  response : option (Z * ErrorData)
}.

(** [err?.response?.status === status] *)
Definition hasStatus (err : AxiosError) (status : Z) : bool :=
  match response err with
  | Some (st, _) => (st =? status)%Z
  | None => false
  end.

(** [err?.response?.data?.detail || err?.response?.data?.message || fallback] *)
Definition errorMessage (err : AxiosError) (fallback : jsstring) : jsstring :=
  match response err with
  | Some (_, d) => or_else (detail d) (or_else (message d) fallback)
  | None => fallback
  end.

(** What the gateway reads and writes outside its own arguments. *)
Record World := {
  store : AuthStore.Store;                 (* useAuthStore *)
  window_href : option jsstring;           (* window.location.href; None: no window *)
  VITE_API_BASE_URL : option jsstring;     (* import.meta.env.VITE_API_BASE_URL *)
  wire : list Request                      (* requests sent so far, oldest first *)
}.

Definition IO := Prog World AxiosError.

Definition API_BASE_URL (w : World) : jsstring :=
  or_else (VITE_API_BASE_URL w) (js "http://127.0.0.1:8000").

Definition set_store (st : AuthStore.Store) (w : World) : World :=
  {| store := st; window_href := window_href w;
     VITE_API_BASE_URL := VITE_API_BASE_URL w; wire := wire w |}.

Definition set_window_href (h : option jsstring) (w : World) : World :=
  {| store := store w; window_href := h;
     VITE_API_BASE_URL := VITE_API_BASE_URL w; wire := wire w |}.

Definition transmit (req : Request) (w : World) : World :=
  {| store := store w; window_href := window_href w;
     VITE_API_BASE_URL := VITE_API_BASE_URL w; wire := wire w ++ [req] |}.

Definition set_authorization (a : option jsstring) (config : Request) : Request :=
  {| method := method config; baseURL := baseURL config; url := url config;
     timeout := timeout config; contentType := contentType config;
     authorization := a; body := body config |}.

(** [axios.create({ baseURL, timeout: 20000, headers: {'Content-Type':
    'application/json'} })] applied to one call. *)
Definition instanceConfig (m : Method) (path : jsstring) (b : Body) : IO Request :=
  base <- gets API_BASE_URL ;;
  ret {| method := m; baseURL := base; url := path; timeout := 20000;
         contentType := js "application/json"; authorization := None; body := b |}.

(** Request interceptor: add the bearer token when the store has one
    ([config.headers] is always there in an axios request). *)
Definition requestInterceptor (config : Request) : IO Request :=
  tok <- gets (fun w => AuthStore.token (AuthStore.state (store w))) ;;
  match tok with
  | Some t =>
      if truthy t
      then ret (set_authorization (Some (js "Bearer " ++ t)) config)
      else ret config
  | None => ret config
  end.

(** [window.location.href = '/login'] under [typeof window !== 'undefined']. *)
Definition redirectToLogin (w : World) : World :=
  match window_href w with
  | Some _ => set_window_href (Some (js "/login")) w
  | None => w
  end.

(** Response interceptor: a response passes through; an error with status
    401 logs the session out and redirects; every error is rethrown. *)
Definition responseInterceptor {T} (reply : Reply T) : IO T :=
  match reply with
  | Fulfilled d => ret d
  | Rejected status d =>
      let error := {| response := Some (status, d) |} in
      (if (status =? 401)%Z
       then modify (fun w => set_store (AuthStore.logout (store w)) w) ;;
            modify redirectToLogin
       else ret tt) ;;
      throw error
  | NoResponse => throw {| response := None |}
  end.

(** The first half of a call: the request goes through the request
    interceptor and onto the wire. *)
Definition issue (config : Request) : IO Request :=
  sent <- requestInterceptor config ;;
  modify (transmit sent) ;;
  ret sent.

(** The second half: the backend's answer comes back through the response
    interceptor; [response.data] is the result. *)
Definition settle {T} (reply : Reply T) : IO T := responseInterceptor reply.

(** One call in two halves, split at the [await] of the caller. *)
Definition call_begin (m : Method) (path : jsstring) (opts : Request -> Request)
    (b : Body) : IO Request :=
  config <- instanceConfig m path b ;;
  issue (opts config).

Definition call {T} (m : Method) (path : jsstring) (opts : Request -> Request)
    (b : Body) (reply : Reply T) : IO T :=
  _ <- call_begin m path opts b ;;
  settle reply.

Definition get {T} (path : jsstring) (reply : Reply T) : IO T :=
  call GET path (fun c => c) NoBody reply.

Definition dataBody (data : option Json) : Body :=
  match data with Some j => JsonBody j | None => NoBody end.

(** [post(url, data?)]: [data] is sent as JSON. *)
Definition post {T} (path : jsstring) (data : option Json) (reply : Reply T) : IO T :=
  call POST path (fun c => c) (dataBody data) reply.

Definition set_contentType (ct : jsstring) (config : Request) : Request :=
  {| method := method config; baseURL := baseURL config; url := url config;
     timeout := timeout config; contentType := ct;
     authorization := authorization config; body := body config |}.

Definition set_timeout (t : Z) (config : Request) : Request :=
  {| method := method config; baseURL := baseURL config; url := url config;
     timeout := t; contentType := contentType config;
     authorization := authorization config; body := body config |}.

(** [postForm(url, data)]: the entries of [data] are appended one by one to
    a fresh [URLSearchParams]. *)
Definition postForm {T} (path : jsstring) (data : list (jsstring * jsstring))
    (reply : Reply T) : IO T :=
  let formData := fold_left (fun fd kv => fd ++ [kv]) data [] in
  call POST path (set_contentType (js "application/x-www-form-urlencoded"))
       (URLSearchParams formData) reply.

(** [healthCheck()]: [true] on an accepted response, [false] on anything
    thrown. *)
Definition healthCheck (reply : Reply unit) : IO bool :=
  try_catch
    (_ <- call GET (js "/health") (set_timeout 5000) NoBody reply ;; ret true)
    (fun _ => ret false).

End ApiClient.

(* --------------------------------------------------------------------- *)
(** ** types/index.ts *)
(* --------------------------------------------------------------------- *)

Module Types.

Record TokenResponse := {
  access_token : jsstring;
  token_type : jsstring
}.

Inductive Role := user | bot.

Record ChatMessage := {
  role : Role;
  text : jsstring
}.

Record ChatHistoryItem := {
  chat_id : jsstring;
  messages : list ChatMessage;
  timestamp : jsstring
}.

Record ChatHistoryResponse := {
  items : list ChatHistoryItem
}.

Record AuthCredentials := {
  username : jsstring;
  password : jsstring
}.

End Types.

(* --------------------------------------------------------------------- *)
(** ** api/auth.ts *)
(* --------------------------------------------------------------------- *)

Module AuthApi.

Import ApiClient Types.

(** The credentials object as axios serialises it to JSON. *)
Definition toJson (credentials : AuthCredentials) : Json :=
  JObject [(js "username", JString (username credentials));
           (js "password", JString (password credentials))].

(** [Object.entries(credentials)] *)
Definition Object_entries (credentials : AuthCredentials) : list (jsstring * jsstring) :=
  [(js "username", username credentials); (js "password", password credentials)].

Definition signup (credentials : AuthCredentials) (reply : Reply TokenResponse)
  : IO TokenResponse :=
  post (js "/auth/signup") (Some (toJson credentials)) reply.

Definition login (credentials : AuthCredentials) (reply : Reply TokenResponse)
  : IO TokenResponse :=
  postForm (js "/auth/login") (Object_entries credentials) reply.

End AuthApi.

(* --------------------------------------------------------------------- *)
(** ** api/chat.ts *)
(* --------------------------------------------------------------------- *)

Module ChatApi.

Import ApiClient Types.

Record SendResp := { reply : jsstring }.

Record NewChatResp := { new_chat_id : jsstring }.

Record CloseResp := { closed : bool; error : option jsstring }.

(** [{ message }] *)
Definition sendMessage_body (msg : jsstring) : Json :=
  JObject [(js "message", JString msg)].

Definition sendMessage (msg : jsstring) (r : Reply SendResp) : IO SendResp :=
  post (js "/chat/message") (Some (sendMessage_body msg)) r.

(** [sendMessage] up to the point where its caller waits for the answer. *)
Definition sendMessage_begin (msg : jsstring) : IO Request :=
  call_begin POST (js "/chat/message") (fun c => c)
             (dataBody (Some (sendMessage_body msg))).

Definition getHistory (r : Reply ChatHistoryResponse) : IO ChatHistoryResponse :=
  get (js "/chat/history") r.

Definition newChat (r : Reply NewChatResp) : IO NewChatResp :=
  post (js "/chat/new") (Some (JObject [])) r.

(** [{ chat_id: chatId ?? null }] *)
Definition closeChat_body (chatId : option jsstring) : Json :=
  JObject [(js "chat_id", match chatId with Some c => JString c | None => JNull end)].

Definition closeChat (chatId : option jsstring) (r : Reply CloseResp) : IO CloseResp :=
  post (js "/chat/close") (Some (closeChat_body chatId)) r.

End ChatApi.

(* --------------------------------------------------------------------- *)
(** ** pages/Chat.tsx: the history view-model *)
(* --------------------------------------------------------------------- *)

Module ChatPage.

Import ApiClient Types.

(** The [useState] cells of [Chat]. *)
Record State := {
  history : list ChatHistoryItem;
  selectedChatId : option jsstring;
  isLoadingHistory : bool;
  error : jsstring;
  isServerOnline : bool;
  isActionLoading : bool
}.

(** The page in its surroundings: the gateway's world, the component state
    and the routes passed to [navigate]. *)
Record Page := {
  world : World;
  view : State;
  navigated : list jsstring
}.

Definition Handler := Prog Page AxiosError.

Definition initialState : State :=
  {| history := []; selectedChatId := None; isLoadingHistory := true;
     error := []; isServerOnline := true; isActionLoading := false |}.

Definition mount (w : World) : Page :=
  {| world := w; view := initialState; navigated := [] |}.

Definition api {A} (c : IO A) : Handler A :=
  zoom world (fun w p => {| world := w; view := view p; navigated := navigated p |}) c.

Definition setView (f : State -> State) : Handler unit :=
  modify (fun p => {| world := world p; view := f (view p); navigated := navigated p |}).

Definition setHistory (h : list ChatHistoryItem) : Handler unit :=
  setView (fun v =>
    {| history := h; selectedChatId := selectedChatId v;
       isLoadingHistory := isLoadingHistory v; error := error v;
       isServerOnline := isServerOnline v; isActionLoading := isActionLoading v |}).

Definition setSelectedChatId (c : option jsstring) : Handler unit :=
  setView (fun v =>
    {| history := history v; selectedChatId := c;
       isLoadingHistory := isLoadingHistory v; error := error v;
       isServerOnline := isServerOnline v; isActionLoading := isActionLoading v |}).

Definition setIsLoadingHistory (b : bool) : Handler unit :=
  setView (fun v =>
    {| history := history v; selectedChatId := selectedChatId v;
       isLoadingHistory := b; error := error v;
       isServerOnline := isServerOnline v; isActionLoading := isActionLoading v |}).

Definition setError (e : jsstring) : Handler unit :=
  setView (fun v =>
    {| history := history v; selectedChatId := selectedChatId v;
       isLoadingHistory := isLoadingHistory v; error := e;
       isServerOnline := isServerOnline v; isActionLoading := isActionLoading v |}).

Definition setIsActionLoading (b : bool) : Handler unit :=
  setView (fun v =>
    {| history := history v; selectedChatId := selectedChatId v;
       isLoadingHistory := isLoadingHistory v; error := error v;
       isServerOnline := isServerOnline v; isActionLoading := b |}).

(** [logout()] of the session store. *)
Definition logout : Handler unit :=
  api (modify (fun w => set_store (AuthStore.logout (store w)) w)).

(** [navigate(path)] of the router. *)
Definition navigate (path : jsstring) : Handler unit :=
  modify (fun p =>
    {| world := world p; view := view p; navigated := navigated p ++ [path] |}).

(** Messages with an accented letter: [e'] is U+00E9. *)
Definition msg_newChatFailed : jsstring :=
  js "Impossible de cr" ++ [0xE9%N] ++ js "er une nouvelle session".

Section Clock.

(** [new Date(s).getTime()]: the time value of a timestamp in milliseconds,
    [None] when the string is not a date (NaN).  The built-in is a
    parameter of the page. *)
Variable Date_getTime : jsstring -> option Z.

(** [(a, b) => new Date(b.timestamp).getTime() - new Date(a.timestamp).getTime()].
    Time values are integers of magnitude at most 8.64e15, so the sign of
    the floating-point difference is the sign of the exact one. *)
Definition byTimestampDesc (a b : ChatHistoryItem) : option Z :=
  match Date_getTime (timestamp b), Date_getTime (timestamp a) with
  | Some tb, Some ta => Some (tb - ta)%Z
  | _, _ => None
  end.

(** [res.items.slice().sort(byTimestampDesc)] *)
Definition sortItems (res : ChatHistoryResponse) : list ChatHistoryItem :=
  Array_sort byTimestampDesc (items res).

Definition loadHistory (r : Reply ChatHistoryResponse) : Handler unit :=
  selected <- gets (fun p => selectedChatId (view p)) ;;
  setIsLoadingHistory true ;;
  setError [] ;;
  try_catch_finally
    (res <- api (ChatApi.getHistory r) ;;
     let sorted := sortItems res in
     setHistory sorted ;;
     match sorted with
     | first :: _ =>
         if negb (truthy_opt selected)
         then setSelectedChatId (Some (chat_id first))
         else ret tt
     | [] => ret tt
     end)
    (fun err =>
       setError (errorMessage err (js "Erreur lors du chargement de l'historique")) ;;
       if hasStatus err 401
       then logout ;; navigate (js "/login")
       else ret tt)
    (setIsLoadingHistory false).

Definition handleSelectChat (chatId : jsstring) : Handler unit :=
  setSelectedChatId (Some chatId).

(** Create a new session and activate it.  The three arguments are the
    backend's answers to the three calls, in the order they are awaited. *)
Definition handleNewChat (r_close : Reply ChatApi.CloseResp)
    (r_new : Reply ChatApi.NewChatResp) (r_hist : Reply ChatHistoryResponse)
  : Handler unit :=
  selected <- gets (fun p => selectedChatId (view p)) ;;
  try_catch_finally
    (setIsActionLoading true ;;
     setError [] ;;
     _ <- api (ChatApi.closeChat selected r_close) ;;
     created <- api (ChatApi.newChat r_new) ;;
     res <- api (ChatApi.getHistory r_hist) ;;
     let sorted := sortItems res in
     setHistory sorted ;;
     setSelectedChatId (Some (ChatApi.new_chat_id created)))
    (fun err => setError (errorMessage err msg_newChatFailed))
    (setIsActionLoading false).

(** Terminate the selected session. *)
Definition handleCloseChat (r_close : Reply ChatApi.CloseResp)
    (r_hist : Reply ChatHistoryResponse) : Handler unit :=
  selected <- gets (fun p => selectedChatId (view p)) ;;
  if negb (truthy_opt selected) then ret tt
  else
    try_catch_finally
      (setIsActionLoading true ;;
       setError [] ;;
       _ <- api (ChatApi.closeChat selected r_close) ;;
       res <- api (ChatApi.getHistory r_hist) ;;
       let sorted := sortItems res in
       setHistory sorted ;;
       setSelectedChatId
         (match sorted with first :: _ => Some (chat_id first) | [] => None end))
      (fun err => setError (errorMessage err (js "Impossible de terminer la session")))
      (setIsActionLoading false).

(** The timestamp of the item is a date. *)
Definition dated (item : ChatHistoryItem) : Prop :=
  Date_getTime (timestamp item) <> None.

(** The timestamp of [a] is at or after the timestamp of [b]. *)
Definition notOlder (a b : ChatHistoryItem) : Prop :=
  match Date_getTime (timestamp a), Date_getTime (timestamp b) with
  | Some ta, Some tb => (tb <= ta)%Z
  | _, _ => False
  end.

(** Each item's timestamp is at or after the next item's. *)
Definition descending (l : list ChatHistoryItem) : Prop :=
  forall i a b, nth_error l i = Some a -> nth_error l (S i) = Some b -> notOlder a b.

(** The time value of a dated item; 0 stands in for an item that has
    none. *)
Definition timeOf (item : ChatHistoryItem) : Z :=
  match Date_getTime (timestamp item) with Some t => t | None => 0%Z end.

(** [handleNewMessage]: the history is refreshed; a failure of the refresh
    would only be logged to the console. *)
Definition handleNewMessage (r : Reply ChatHistoryResponse) : Handler unit :=
  try_catch (loadHistory r) (fun _ => ret tt).

End Clock.

(** [history.find((item) => item.chat_id === selectedChatId) || null] *)
Definition selectedHistory (v : State) : option ChatHistoryItem :=
  match selectedChatId v with
  | Some c => find (fun item => JS.eqb (chat_id item) c) (history v)
  | None => None
  end.

(** Messages of the server status check; the accented letter is U+00E9. *)
Definition msg_serverUnavailable : jsstring :=
  js "Serveur indisponible. Veuillez r" ++ [0xE9%N] ++ js "essayer plus tard.".

Definition msg_cannotContact : jsstring :=
  js "Impossible de contacter le serveur.".

Definition setIsServerOnline (b : bool) : Handler unit :=
  setView (fun v =>
    {| history := history v; selectedChatId := selectedChatId v;
       isLoadingHistory := isLoadingHistory v; error := error v;
       isServerOnline := b; isActionLoading := isActionLoading v |}).

Definition checkServerStatus (r : Reply unit) : Handler unit :=
  try_catch
    (isOnline <- api (healthCheck r) ;;
     setIsServerOnline isOnline ;;
     if negb isOnline then setError msg_serverUnavailable else ret tt)
    (fun _ =>
       setIsServerOnline false ;;
       setError msg_cannotContact).

Definition handleLogout : Handler unit :=
  logout ;; navigate (js "/login").

(** [!isServerOnline && error]: the page renders the "Serveur
    indisponible" screen in place of the chat. *)
Definition showsOfflineScreen (v : State) : bool :=
  negb (isServerOnline v) && truthy (error v).

(** [error && isServerOnline]: the chat is rendered with the error banner
    above it. *)
Definition showsErrorBanner (v : State) : bool :=
  truthy (error v) && isServerOnline v.

End ChatPage.

(* --------------------------------------------------------------------- *)
(** ** components/ChatWindow.tsx: the conversation view-model *)
(* --------------------------------------------------------------------- *)

Module ChatWindow.

Import ApiClient Types.

(** The [useState] cells of [ChatWindow]. *)
Record State := {
  currentMessages : list ChatMessage;
  message : jsstring;
  isSending : bool;
  error : jsstring
}.

(** A [handleSend] waiting at its [await]: what its continuation still
    reads from the closure. *)
Record Suspended := {
  trimmedMessage : jsstring
}.

(** The component in its surroundings: the gateway's world, the component
    state, the sends that await an answer (oldest first) and the calls made
    to the parent's [onNewMessage]. *)
Record Sys := {
  world : World;
  ui : State;
  inFlight : list Suspended;
  notified : list (jsstring * jsstring)
}.

Definition Handler := Prog Sys AxiosError.

Definition initialState : State :=
  {| currentMessages := []; message := []; isSending := false; error := [] |}.

Definition mount (w : World) : Sys :=
  {| world := w; ui := initialState; inFlight := []; notified := [] |}.

Definition api {A} (c : IO A) : Handler A :=
  zoom world
       (fun w s => {| world := w; ui := ui s; inFlight := inFlight s;
                      notified := notified s |}) c.

Definition setUi (f : State -> State) : Handler unit :=
  modify (fun s => {| world := world s; ui := f (ui s); inFlight := inFlight s;
                      notified := notified s |}).

(** [setCurrentMessages(prev => f(prev))] *)
Definition setCurrentMessages (f : list ChatMessage -> list ChatMessage) : Handler unit :=
  setUi (fun v =>
    {| currentMessages := f (currentMessages v); message := message v;
       isSending := isSending v; error := error v |}).

Definition setMessage (m : jsstring) : Handler unit :=
  setUi (fun v =>
    {| currentMessages := currentMessages v; message := m;
       isSending := isSending v; error := error v |}).

Definition setIsSending (b : bool) : Handler unit :=
  setUi (fun v =>
    {| currentMessages := currentMessages v; message := message v;
       isSending := b; error := error v |}).

Definition setError (e : jsstring) : Handler unit :=
  setUi (fun v =>
    {| currentMessages := currentMessages v; message := message v;
       isSending := isSending v; error := e |}).

(** The handler stops at its [await] and is kept until the answer comes. *)
Definition suspend (k : Suspended) : Handler unit :=
  modify (fun s => {| world := world s; ui := ui s; inFlight := inFlight s ++ [k];
                      notified := notified s |}).

(** The [n]-th waiting handler is taken out to be resumed. *)
Definition wake (n : nat) (s : Sys) : Sys :=
  {| world := world s; ui := ui s;
     inFlight := firstn n (inFlight s) ++ skipn (S n) (inFlight s);
     notified := notified s |}.

(** [onNewMessage(userMessage, botReply)]: the parent is told. *)
Definition onNewMessage (userMessage botReply : jsstring) : Handler unit :=
  modify (fun s => {| world := world s; ui := ui s; inFlight := inFlight s;
                      notified := notified s ++ [(userMessage, botReply)] |}).

Definition msg_sendFailed : jsstring :=
  js "Erreur lors de l'envoi du message. Veuillez r" ++ [0xE9%N] ++ js "essayer.".

(** The effect on [history]: the displayed list is replaced by the
    messages of the session handed down by the parent. *)
Definition historyEffect (history : option ChatHistoryItem) : Handler unit :=
  match history with
  | Some h => setCurrentMessages (fun _ => messages h)
  | None => setCurrentMessages (fun _ => [])
  end.

(** [handleSend] from its first line to the [await]. *)
Definition handleSend : Handler unit :=
  msg <- gets (fun s => message (ui s)) ;;
  sending <- gets (fun s => isSending (ui s)) ;;
  let trimmed := trim msg in
  if negb (truthy trimmed) || sending then ret tt
  else
    setError [] ;;
    setIsSending true ;;
    let userMessage := {| role := user; text := trimmed |} in
    setCurrentMessages (fun prev => prev ++ [userMessage]) ;;
    setMessage [] ;;
    _ <- api (ChatApi.sendMessage_begin trimmed) ;;
    suspend {| trimmedMessage := trimmed |}.

(** [handleSend] from the [await] on, with the backend's answer.  The
    focus call on the textarea at the end of [finally] touches no state
    and is left out. *)
Definition handleSend_resume (k : Suspended) (r : Reply ChatApi.SendResp) : Handler unit :=
  try_catch_finally
    (response <- api (settle r) ;;
     let botMessage := {| role := bot; text := ChatApi.reply response |} in
     setCurrentMessages (fun prev => prev ++ [botMessage]) ;;
     onNewMessage (trimmedMessage k) (ChatApi.reply response))
    (fun err =>
       setError (errorMessage err msg_sendFailed) ;;
       setCurrentMessages slice_0_minus1 ;;
       setMessage (trimmedMessage k))
    (setIsSending false).

(** What can happen to the component.  The textarea is disabled while
    [isSending] holds, so a browser delivers [Change] only to an idle
    component; the step function accepts it at any time. *)
Inductive Event :=
| Change (value : jsstring)                       (* onChange of the textarea *)
| Submit                                          (* button click or Enter *)
| History (history : option ChatHistoryItem)      (* the [history] prop changes *)
| Answer (n : nat) (r : Reply ChatApi.SendResp).  (* the n-th pending call settles *)

(** One event.  [None]: the event cannot happen (no such pending call). *)
Definition step (e : Event) (s : Sys) : option Sys :=
  match e with
  | Change value => Some (exec (setMessage value) s)
  | Submit => Some (exec handleSend s)
  | History h => Some (exec (historyEffect h) s)
  | Answer n r =>
      match nth_error (inFlight s) n with
      | Some k => Some (exec (handleSend_resume k r) (wake n s))
      | None => None
      end
  end.

Fixpoint run (es : list Event) (s : Sys) : option Sys :=
  match es with
  | [] => Some s
  | e :: rest =>
      match step e s with
      | Some s' => run rest s'
      | None => None
      end
  end.

(** The call was rejected: the backend answered with a status axios does
    not accept, or did not answer. *)
Definition rejects {T} (r : Reply T) : bool :=
  match r with Fulfilled _ => false | _ => true end.

(** Events that leave the displayed conversation to the send in progress:
    typing and further submits. *)
Definition quiet (e : Event) : bool :=
  match e with Change _ | Submit => true | _ => false end.

(** Events other than the arrival of an answer. *)
Definition notAnswer (e : Event) : bool :=
  match e with Answer _ _ => false | _ => true end.

(** The component is idle with nothing pending, or sending with exactly
    one call pending. *)
Definition idleOrSending (s : Sys) : Prop :=
  (isSending (ui s) = false /\ inFlight s = [])
  \/ (isSending (ui s) = true /\ exists k, inFlight s = [k]).

(** [disabled={!message.trim() || isSending}] of the send button. *)
Definition sendDisabled (v : State) : bool :=
  negb (truthy (trim (message v))) || isSending v.

End ChatWindow.

(* --------------------------------------------------------------------- *)
(** ** Every call the services can make *)
(* --------------------------------------------------------------------- *)

Module Backend.

Import ApiClient Types.

(** The operations that reach the backend, each with the payload type of
    its answer. *)
Inductive Operation : Type -> Type :=
| Signup (credentials : AuthCredentials) : Operation TokenResponse
| Login (credentials : AuthCredentials) : Operation TokenResponse
| SendMessage (msg : jsstring) : Operation ChatApi.SendResp
| GetHistory : Operation ChatHistoryResponse
| NewChat : Operation ChatApi.NewChatResp
| CloseChat (chatId : option jsstring) : Operation ChatApi.CloseResp
| HealthCheck : Operation unit.

(** The world after the operation, given the backend's answer. *)
Definition perform {T} (op : Operation T) : Reply T -> World -> World :=
  match op in Operation T return Reply T -> World -> World with
  | Signup c => fun r => exec (AuthApi.signup c r)
  | Login c => fun r => exec (AuthApi.login c r)
  | SendMessage m => fun r => exec (ChatApi.sendMessage m r)
  | GetHistory => fun r => exec (ChatApi.getHistory r)
  | NewChat => fun r => exec (ChatApi.newChat r)
  | CloseChat c => fun r => exec (ChatApi.closeChat c r)
  | HealthCheck => fun r => exec (healthCheck r)
  end.

(** Method and path of the request each operation makes. *)
Definition route {T} (op : Operation T) : Method * jsstring :=
  match op with
  | Signup _ => (POST, js "/auth/signup")
  | Login _ => (POST, js "/auth/login")
  | SendMessage _ => (POST, js "/chat/message")
  | GetHistory => (GET, js "/chat/history")
  | NewChat => (POST, js "/chat/new")
  | CloseChat _ => (POST, js "/chat/close")
  | HealthCheck => (GET, js "/health")
  end.

(** The time limit of the request in milliseconds. *)
Definition timeLimit {T} (op : Operation T) : Z :=
  match op with
  | HealthCheck => 5000%Z
  | _ => 20000%Z
  end.

(** The [Authorization] header a request gets from a store in state [s]. *)
Definition bearer (s : AuthStore.AuthState) : option jsstring :=
  match AuthStore.token s with
  | Some t => if truthy t then Some (js "Bearer " ++ t) else None
  | None => None
  end.

End Backend.

(* --------------------------------------------------------------------- *)
(** ** components/AuthGuard.tsx *)
(* --------------------------------------------------------------------- *)

Module AuthGuard.

(** What the guard returns from a render. *)
Inductive Rendered :=
| Navigate (to : jsstring)
| Children.

(** [if (!isAuthenticated || !token) return <Navigate to="/login" .../>;
    return <>{children}</>] *)
Definition render (s : AuthStore.AuthState) : Rendered :=
  if negb (AuthStore.isAuthenticated s) || negb (truthy_opt (AuthStore.token s))
  then Navigate (js "/login")
  else Children.

(** The effect that runs after the guard is mounted. *)
Definition mountEffect : AuthStore.Store -> AuthStore.Store :=
  AuthStore.loadFromStorage.

End AuthGuard.

(* --------------------------------------------------------------------- *)
(** ** components/AuthForm.tsx *)
(* --------------------------------------------------------------------- *)

Module AuthForm.

Import ApiClient Types.

(** [mode: 'login' | 'signup'] *)
Inductive Mode := login | signup.

(** The [useState] cells of [AuthForm]. *)
Record State := {
  username : jsstring;
  password : jsstring;
  isLoading : bool;
  error : jsstring
}.

(** The form in its surroundings: the gateway's world, the component state
    and the routes passed to [navigate]. *)
Record Form := {
  world : World;
  fields : State;
  navigated : list jsstring
}.

Definition Handler := Prog Form AxiosError.

Definition api {A} (c : IO A) : Handler A :=
  zoom world (fun w f => {| world := w; fields := fields f; navigated := navigated f |}) c.

Definition setFields (g : State -> State) : Handler unit :=
  modify (fun f => {| world := world f; fields := g (fields f); navigated := navigated f |}).

Definition setIsLoading (b : bool) : Handler unit :=
  setFields (fun v =>
    {| username := username v; password := password v;
       isLoading := b; error := error v |}).

Definition setError (e : jsstring) : Handler unit :=
  setFields (fun v =>
    {| username := username v; password := password v;
       isLoading := isLoading v; error := e |}).

(** [login(token, username)] of the session store. *)
Definition storeLogin (tok user : jsstring) : Handler unit :=
  api (modify (fun w => set_store (AuthStore.login tok user (store w)) w)).

Definition navigate (path : jsstring) : Handler unit :=
  modify (fun f =>
    {| world := world f; fields := fields f; navigated := navigated f ++ [path] |}).

Definition msg_fillAllFields : jsstring := js "Veuillez remplir tous les champs".

Definition msg_submitFailed : jsstring :=
  js "Une erreur est survenue. V" ++ [0xE9%N] ++ js "rifiez vos identifiants.".

(** [handleSubmit]; [r] is the backend's answer to the one call it makes. *)
Definition handleSubmit (mode : Mode) (r : Reply TokenResponse) : Handler unit :=
  user <- gets (fun f => username (fields f)) ;;
  pass <- gets (fun f => password (fields f)) ;;
  setError [] ;;
  if negb (truthy (trim user)) || negb (truthy pass)
  then setError msg_fillAllFields
  else
    setIsLoading true ;;
    try_catch_finally
      (let credentials := {| Types.username := trim user; Types.password := pass |} in
       response <- api (match mode with
                        | login => AuthApi.login credentials r
                        | signup => AuthApi.signup credentials r
                        end) ;;
       storeLogin (access_token response) (trim user) ;;
       navigate (js "/chat"))
      (fun err => setError (errorMessage err msg_submitFailed))
      (setIsLoading false).

End AuthForm.

(* --------------------------------------------------------------------- *)
(** ** components/HistoryList.tsx *)
(* --------------------------------------------------------------------- *)

Module HistoryList.

Import Types.

Definition isBot (msg : ChatMessage) : bool :=
  match role msg with bot => true | user => false end.

Definition msg_newConversation : jsstring := js "Nouvelle conversation".

(** [botMessages[botMessages.length - 1]?.text || 'Nouvelle conversation'] *)
Definition getLastBotMessage (item : ChatHistoryItem) : jsstring :=
  let botMessages := filter isBot (messages item) in
  or_else (option_map text (nth_error botMessages (List.length botMessages - 1)))
          msg_newConversation.

(** [text.length > maxLength ? text.substring(0, maxLength) + '...' : text] *)
Definition truncateText (text : jsstring) (maxLength : nat) : jsstring :=
  if Nat.ltb maxLength (List.length text)
  then firstn maxLength text ++ js "..."
  else text.

(** The default of [maxLength]. *)
Definition defaultMaxLength : nat := 60.

(** The line under a session's title: [truncateText(lastBotMessage)]. *)
Definition preview (item : ChatHistoryItem) : jsstring :=
  truncateText (getLastBotMessage item) defaultMaxLength.

(** [item.chat_id.slice(-8)]: the last eight code units of the id, the
    whole id when it is shorter. *)
Definition sessionLabel (item : ChatHistoryItem) : jsstring :=
  skipn (List.length (chat_id item) - 8) (chat_id item).

End HistoryList.

(* --------------------------------------------------------------------- *)
(** ** Sample data for the worked examples *)
(* --------------------------------------------------------------------- *)

Module Samples.

Import ApiClient Types.

(** A browser with a logged-in session. *)
Definition browser : World :=
  {| store := AuthStore.login (js "tok1") (js "alice") AuthStore.fresh;
     window_href := Some (js "/chat");
     VITE_API_BASE_URL := None;
     wire := [] |}.

(** The time values [Date] gives for three timestamps; the strings it is
    not asked about here are left without one. *)
Definition sampleClock (s : jsstring) : option Z :=
  if JS.eqb s (js "2024-04-30T08:30:00Z") then Some 1714465800000%Z
  else if JS.eqb s (js "2024-05-01T09:00:00Z") then Some 1714554000000%Z
  else if JS.eqb s (js "2024-05-02T10:00:00Z") then Some 1714644000000%Z
  else None.

(** A session without messages. *)
Definition session (id stamp : string) : ChatHistoryItem :=
  {| chat_id := js id; messages := []; timestamp := js stamp |}.

(** The server lists the sessions oldest first; ["abc123"] is in the
    middle. *)
Definition sampleHistory : ChatHistoryResponse :=
  {| items := [session "s1" "2024-04-30T08:30:00Z";
               session "abc123" "2024-05-01T09:00:00Z";
               session "s3" "2024-05-02T10:00:00Z"] |}.

(** The page of a logged-in user with session ["s1"] selected. *)
Definition samplePage : ChatPage.Page :=
  {| ChatPage.world := browser;
     ChatPage.view :=
       {| ChatPage.history := [];
          ChatPage.selectedChatId := Some (js "s1");
          ChatPage.isLoadingHistory := false;
          ChatPage.error := [];
          ChatPage.isServerOnline := true;
          ChatPage.isActionLoading := false |};
     ChatPage.navigated := [] |}.

(** A conversation of two messages with a new question typed, blanks
    around it. *)
Definition conversation : ChatWindow.Sys :=
  {| ChatWindow.world := browser;
     ChatWindow.ui :=
       {| ChatWindow.currentMessages :=
            [{| role := user; text := js "bonjour" |};
             {| role := bot; text := js "Bonjour, que puis-je faire ?" |}];
          ChatWindow.message := js "  j'ai mal  ";
          ChatWindow.isSending := false;
          ChatWindow.error := [] |};
     ChatWindow.inFlight := [];
     ChatWindow.notified := [] |}.

(** Another session of the history, with two messages of its own. *)
Definition otherSession : ChatHistoryItem :=
  {| chat_id := js "s3";
     messages := [{| role := user; text := js "a" |}; {| role := bot; text := js "b" |}];
     timestamp := js "2024-05-02T10:00:00Z" |}.

(** A history in which two sessions carry the same timestamp. *)
Definition tiedHistory : ChatHistoryResponse :=
  {| items := [session "s1" "2024-04-30T08:30:00Z";
               session "a" "2024-05-01T09:00:00Z";
               session "b" "2024-05-01T09:00:00Z"] |}.

(** The sign-in form as a user filled it, blanks around the name. *)
Definition filledForm : AuthForm.Form :=
  {| AuthForm.world :=
       {| store := AuthStore.fresh;
          window_href := Some (js "/login");
          VITE_API_BASE_URL := None;
          wire := [] |};
     AuthForm.fields :=
       {| AuthForm.username := js " alice ";
          AuthForm.password := js "secret";
          AuthForm.isLoading := false;
          AuthForm.error := [] |};
     AuthForm.navigated := [] |}.

(** The token payload of the scenario. *)
Definition tok1 : TokenResponse :=
  {| access_token := js "tok1"; token_type := js "bearer" |}.

End Samples.

(* ===================================================================== *)
(** * Part II: properties *)
(* ===================================================================== *)

Arguments js : simpl never.

Unset Implicit Arguments.

Import Samples.

(** ** Strings *)

Lemma eqb_eq (a b : jsstring) : JS.eqb a b = true <-> a = b.
Proof.
  unfold JS.eqb. destruct (list_eq_dec N.eq_dec a b); split; congruence.
Qed.

Lemma trimStart_nil_iff (s : jsstring) :
  trimStart s = [] <-> forallb isWhiteSpace s = true.
Proof.
  induction s as [|c r IH]; simpl.
  - tauto.
  - destruct (isWhiteSpace c) eqn:E; simpl.
    + exact IH.
    + split; discriminate.
Qed.

Lemma forallb_rev (f : N -> bool) (s : jsstring) :
  forallb f (rev s) = forallb f s.
Proof.
  induction s as [|c r IH]; simpl; auto.
  rewrite forallb_app, IH. simpl. rewrite andb_true_r. apply andb_comm.
Qed.

Lemma trimStart_split (s : jsstring) :
  exists p, s = p ++ trimStart s /\ forallb isWhiteSpace p = true.
Proof.
  induction s as [|c r [p [Hp Hw]]]; simpl.
  - exists []; auto.
  - destruct (isWhiteSpace c) eqn:E.
    + exists (c :: p). simpl. rewrite E, Hw. split; [congruence|reflexivity].
    + exists []; auto.
Qed.

(** [trim] returns the empty string exactly on whitespace-only input, the
    empty input included. *)
Lemma trim_nil_iff (s : jsstring) :
  trim s = [] <-> forallb isWhiteSpace s = true.
Proof.
  unfold trim, trimEnd. split.
  - intro H.
    assert (H1 : trimStart (rev (trimStart s)) = []).
    { destruct (trimStart (rev (trimStart s))) as [|c r]; [reflexivity|].
      simpl in H. apply app_eq_nil in H. destruct H; discriminate. }
    apply trimStart_nil_iff in H1. rewrite forallb_rev in H1.
    destruct (trimStart_split s) as [p [Hp Hw]].
    rewrite Hp, forallb_app, Hw, H1. reflexivity.
  - intro H. apply trimStart_nil_iff in H. rewrite H. reflexivity.
Qed.

Lemma truthy_false_iff (s : jsstring) : truthy s = false <-> s = [].
Proof. destruct s; simpl; split; congruence. Qed.

Lemma truthy_true_iff (s : jsstring) : truthy s = true <-> s <> [].
Proof. destruct s; simpl; split; congruence. Qed.

(** ** The session store *)

Section SessionStore.

Import AuthStore.

Lemma reachable_storageInSync (st : Store) :
  reachable st -> storageInSync st.
Proof.
  induction 1 as [| tok user st _ _ | st _ _ | st _ IH | st _ IH];
    unfold storageInSync in *; simpl; auto.
  - unfold loadFromStorage. destruct (truthy_opt (token (state st))); simpl; auto.
  - destruct (localStorage st) as [[pt pu]|]; simpl; auto.
Qed.

Lemma reachable_flag_needs_token (st : Store) :
  reachable st -> isAuthenticated (state st) = true -> token (state st) <> None.
Proof.
  induction 1 as [| tok user st _ _ | st _ _ | st _ IH | st _ IH]; simpl;
    try discriminate.
  - unfold loadFromStorage.
    destruct (token (state st)) as [t|] eqn:E; simpl.
    + destruct (truthy t); simpl; rewrite ?E; discriminate.
    + rewrite E. exact IH.
  - destruct (localStorage st); simpl; discriminate.
Qed.

Lemma reload_keeps_credentials (st : Store) :
  storageInSync st ->
  token (state (reload st)) = token (state st)
  /\ username (state (reload st)) = username (state st)
  /\ isAuthenticated (state (reload st)) = false.
Proof.
  unfold storageInSync, reload, create.
  destruct (localStorage st) as [p|]; simpl.
  - intros ->. simpl. auto.
  - intros [-> ->]. auto.
Qed.

(** C3, as stated, fails: after a login and a reload the store is in a
    reachable state that holds the token ["tok1"] while [isAuthenticated] is
    [false]; the persisted record carries no flag and the rehydrated state
    takes the initial one. *)
Lemma flag_lost_on_reload :
  reachable session_after_reload
  /\ token (state session_after_reload) = Some (js "tok1")
  /\ isAuthenticated (state session_after_reload) = false
  /\ ~ flagMatchesToken (state session_after_reload).
Proof.
  split; [| split; [| split]].
  - unfold session_after_reload. apply reach_reload, reach_login, reach_fresh.
  - reflexivity.
  - reflexivity.
  - unfold flagMatchesToken. simpl. intros [_ H].
    assert (C : false = true) by (apply H; discriminate). discriminate.
Qed.

(** C3, amended: in every reachable state of the session store an
    authenticated flag implies a token.  The flag is true exactly when a
    token is present in the initial state, after [login], after [logout],
    and after [loadFromStorage] unless the token is the empty string.  A
    reload keeps token and user name and leaves the flag false, whatever
    the token, until [loadFromStorage] runs. *)
Theorem session_flag_and_token (st : Store) :
  reachable st ->
  (isAuthenticated (state st) = true -> token (state st) <> None)
  /\ flagMatchesToken (state fresh)
  /\ (forall tok user, flagMatchesToken (state (login tok user st)))
  /\ flagMatchesToken (state (logout st))
  /\ (token (state st) <> Some [] -> flagMatchesToken (state (loadFromStorage st)))
  /\ (token (state (reload st)) = token (state st)
      /\ username (state (reload st)) = username (state st)
      /\ isAuthenticated (state (reload st)) = false).
Proof.
  intro R. unfold flagMatchesToken.
  split; [exact (reachable_flag_needs_token st R)|].
  split; [simpl; split; [discriminate | intro H; now elim H]|].
  split; [intros tok user; simpl; split; [discriminate | reflexivity]|].
  split; [simpl; split; [discriminate | intro H; now elim H]|].
  split; [| exact (reload_keeps_credentials st (reachable_storageInSync st R))].
  intro Hne. unfold loadFromStorage.
  pose proof (reachable_flag_needs_token st R) as Hflag.
  destruct (token (state st)) as [t|] eqn:E; simpl.
  - destruct t as [|c t]; [now elim Hne|]. simpl. rewrite E.
    split; [discriminate | reflexivity].
  - rewrite E. split; [exact Hflag | intro H; now elim H].
Qed.

(** The theorem at a logged-in session, and at that session reloaded. *)
Lemma session_flag_and_token_witness :
  reachable (login (js "tok1") (js "alice") fresh)
  /\ isAuthenticated (state (reload (login (js "tok1") (js "alice") fresh))) = false
  /\ flagMatchesToken
       (state (loadFromStorage (reload (login (js "tok1") (js "alice") fresh)))).
Proof.
  assert (R : reachable (login (js "tok1") (js "alice") fresh))
    by apply reach_login, reach_fresh.
  split; [exact R|].
  split.
  - exact (proj2 (proj2 (proj2 (proj2 (proj2 (proj2 (proj2 (session_flag_and_token _ R)))))))).
  - refine (proj1 (proj2 (proj2 (proj2 (proj2
              (session_flag_and_token _ (reach_reload R)))))) _).
    discriminate.
Defined.

(** C5: for every non-empty token and every user name, [login], then a
    reload that restores only the persisted [{token, username}] record, then
    [loadFromStorage], gives back the state the login left: same token, same
    user name, authenticated; the stored record is the same as well. *)
Theorem login_survives_reload (tok user : jsstring) (st : Store) :
  tok <> [] ->
  loadFromStorage (reload (login tok user st)) = login tok user st
  /\ isAuthenticated (state (loadFromStorage (reload (login tok user st)))) = true
  /\ token (state (loadFromStorage (reload (login tok user st)))) = Some tok.
Proof.
  intro Hne. destruct tok as [|c tok]; [now elim Hne|].
  repeat split.
Qed.

(** The scenario of the specification: token ["tok1"], user ["alice"]. *)
Lemma login_survives_reload_witness :
  js "tok1" <> []
  /\ loadFromStorage (reload (login (js "tok1") (js "alice") fresh))
     = login (js "tok1") (js "alice") fresh.
Proof.
  assert (H : js "tok1" <> []) by discriminate.
  split; [exact H|].
  exact (proj1 (login_survives_reload (js "tok1") (js "alice") fresh H)).
Defined.

End SessionStore.

(** ** The gateway *)

(** Case analysis on everything a call reads from the world: the token of
    the store (absent, empty, non-empty). *)
Ltac open_world w :=
  let st := fresh "st" in
  let s := fresh "s" in
  let tok := fresh "tok" in
  let href := fresh "href" in
  destruct w as [st href ?env ?sent];
  destruct st as [s ?stored];
  destruct s as [tok ?user ?flag];
  destruct tok as [[|? ?]|];
  destruct href as [?|].

Section Gateway.

Import ApiClient Types AuthStore.

(** C8: whatever the credentials, [signup] posts them to [/auth/signup] as
    a JSON object and [login] posts them to [/auth/login] as url-encoded
    form fields, and on an accepted response both return the response's
    payload, the [{access_token, token_type}] record. *)
Theorem auth_encodings (credentials : AuthCredentials)
    (r : Reply TokenResponse) (w : World) :
  (exists req,
      wire (exec (AuthApi.signup credentials r) w) = wire w ++ [req]
      /\ method req = POST
      /\ url req = js "/auth/signup"
      /\ contentType req = js "application/json"
      /\ body req = JsonBody (JObject
           [(js "username", JString (Types.username credentials));
            (js "password", JString (password credentials))]))
  /\ (exists req,
      wire (exec (AuthApi.login credentials r) w) = wire w ++ [req]
      /\ method req = POST
      /\ url req = js "/auth/login"
      /\ contentType req = js "application/x-www-form-urlencoded"
      /\ body req = URLSearchParams
           [(js "username", Types.username credentials);
            (js "password", password credentials)])
  /\ (forall payload : TokenResponse,
      fst (AuthApi.signup credentials (Fulfilled payload) w) = Returned payload
      /\ fst (AuthApi.login credentials (Fulfilled payload) w) = Returned payload).
Proof.
  open_world w.
  all: split; [| split].
  all: try (destruct r as [d | status d |]; [| destruct (status =? 401)%Z eqn:E |];
            unfold exec; cbn; try rewrite E; cbn;
            eexists; repeat split; reflexivity).
  all: intros payload; split; reflexivity.
Qed.

(** The split call of the conversation view is the call of the service. *)
Lemma sendMessage_split (msg : jsstring) (r : Reply ChatApi.SendResp) :
  ChatApi.sendMessage msg r
  = bind (ChatApi.sendMessage_begin msg) (fun _ => settle r).
Proof. reflexivity. Qed.

(** C2: for every operation of the two services and the health probe, a
    response with status 401 leaves the session store logged out (not
    authenticated, no token, no user name, and the stored record emptied),
    and where there is a browser window its location is set to [/login]. *)
Theorem unauthorized_forces_logout (T : Type) (op : Backend.Operation T)
    (d : ErrorData) (w : World) :
  isAuthenticated (state (store (Backend.perform op (Rejected 401 d) w))) = false
  /\ token (state (store (Backend.perform op (Rejected 401 d) w))) = None
  /\ AuthStore.username (state (store (Backend.perform op (Rejected 401 d) w))) = None
  /\ localStorage (store (Backend.perform op (Rejected 401 d) w))
     = Some {| p_token := None; p_username := None |}
  /\ (window_href w <> None ->
      window_href (Backend.perform op (Rejected 401 d) w) = Some (js "/login")).
Proof.
  destruct op; open_world w; unfold Backend.perform, exec; cbn;
    repeat split; try reflexivity; intro H; now elim H.
Qed.

(** A 401 on the history call of a logged-in browser session. *)
Lemma unauthorized_forces_logout_witness :
  window_href browser <> None
  /\ state (store (Backend.perform Backend.GetHistory
                     (Rejected 401 {| detail := None; message := None |}) browser))
     = AuthStore.initialState
  /\ window_href (Backend.perform Backend.GetHistory
                     (Rejected 401 {| detail := None; message := None |}) browser)
     = Some (js "/login").
Proof.
  assert (H : window_href browser <> None) by discriminate.
  split; [exact H|].
  split; [reflexivity|].
  exact (proj2 (proj2 (proj2 (proj2
           (unauthorized_forces_logout _ Backend.GetHistory
              {| detail := None; message := None |} browser)))) H).
Defined.

End Gateway.

(** ** Sorting *)

Section Sorting.

Variable A : Type.
Variable comparefn : A -> A -> option Z.

Lemma sort_insert_perm (x : A) (l : list A) :
  Permutation (x :: l) (sort_insert comparefn x l).
Proof.
  induction l as [|y r IH]; simpl.
  - apply Permutation_refl.
  - destruct (SortCompare comparefn x y <=? 0)%Z.
    + apply Permutation_refl.
    + eapply perm_trans; [apply perm_swap|]. now apply perm_skip.
Qed.

Lemma Array_sort_perm (l : list A) : Permutation l (Array_sort comparefn l).
Proof.
  induction l as [|x r IH]; simpl.
  - apply perm_nil.
  - eapply perm_trans; [apply perm_skip, IH|]. apply sort_insert_perm.
Qed.

Variable ok : A -> Prop.
Hypothesis before_total : forall x y, ok x -> ok y -> before comparefn x y \/ before comparefn y x.

Lemma sort_insert_HdRel (a x : A) (l : list A) :
  before comparefn a x ->
  HdRel (before comparefn) a l ->
  HdRel (before comparefn) a (sort_insert comparefn x l).
Proof.
  intros Hax Hal. destruct l as [|y r]; simpl.
  - now constructor.
  - destruct (SortCompare comparefn x y <=? 0)%Z.
    + now constructor.
    + inversion Hal; subst. now constructor.
Qed.

Lemma sort_insert_Sorted (x : A) (l : list A) :
  ok x -> Forall ok l ->
  Sorted (before comparefn) l ->
  Sorted (before comparefn) (sort_insert comparefn x l).
Proof.
  intros Hx Hl Hs. induction l as [|y r IH]; simpl.
  - repeat constructor.
  - inversion Hl as [|? ? Hy Hr]; subst. inversion Hs as [|? ? Hsr Hhd]; subst.
    destruct (SortCompare comparefn x y <=? 0)%Z eqn:E.
    + constructor; [assumption|]. constructor. now apply Z.leb_le.
    + constructor; [now apply IH|].
      apply sort_insert_HdRel; [|assumption].
      destruct (before_total x y Hx Hy) as [H|H]; [|exact H].
      unfold before in H. apply Z.leb_le in H. congruence.
Qed.

Lemma Array_sort_Sorted (l : list A) :
  Forall ok l -> Sorted (before comparefn) (Array_sort comparefn l).
Proof.
  induction 1 as [|x r Hx Hr IH]; simpl.
  - constructor.
  - apply sort_insert_Sorted; [assumption| |assumption].
    eapply Permutation_Forall; [apply Array_sort_perm | exact Hr].
Qed.

End Sorting.

Section Stability.

Variable A : Type.
Variable comparefn : A -> A -> option Z.
Variable ok : A -> Prop.
Variable key : A -> Z.
Hypothesis before_key :
  forall x y, ok x -> ok y -> (before comparefn x y <-> (key y <= key x)%Z).

(** Inserting [x] moves it past elements of other keys only. *)
Lemma sort_insert_filter (t : Z) (x : A) (l : list A) :
  ok x -> Forall ok l ->
  filter (fun y => (key y =? t)%Z) (sort_insert comparefn x l)
  = filter (fun y => (key y =? t)%Z) (x :: l).
Proof.
  intros Hx Hl. induction Hl as [|y r Hy Hr IH]; [reflexivity|].
  simpl sort_insert.
  destruct (SortCompare comparefn x y <=? 0)%Z eqn:E; [reflexivity|].
  assert (Hxy : (key x < key y)%Z).
  { apply Z.leb_gt in E.
    destruct (Z.le_gt_cases (key y) (key x)) as [H|H]; [|lia].
    apply before_key in H; [|assumption|assumption]. unfold before in H. lia. }
  simpl filter at 1. rewrite IH. simpl.
  destruct (key y =? t)%Z eqn:Ey, (key x =? t)%Z eqn:Ex; try reflexivity.
  apply Z.eqb_eq in Ey, Ex. lia.
Qed.

(** The sort is stable: the elements of one key keep their order. *)
Lemma Array_sort_stable (t : Z) (l : list A) :
  Forall ok l ->
  filter (fun y => (key y =? t)%Z) (Array_sort comparefn l)
  = filter (fun y => (key y =? t)%Z) l.
Proof.
  induction 1 as [|x r Hx Hr IH]; [reflexivity|].
  simpl Array_sort. rewrite sort_insert_filter.
  - simpl. now rewrite IH.
  - assumption.
  - eapply Permutation_Forall; [apply Array_sort_perm | exact Hr].
Qed.

End Stability.

Lemma Sorted_adjacent (A : Type) (R : A -> A -> Prop) (l : list A) :
  Sorted R l ->
  forall i a b, nth_error l i = Some a -> nth_error l (S i) = Some b -> R a b.
Proof.
  induction 1 as [|x l Hs IH Hhd]; intros i a b Ha Hb.
  - destruct i; discriminate.
  - destruct i as [|i]; simpl in *.
    + injection Ha as <-. destruct l as [|y r]; [discriminate|].
      injection Hb as <-. now inversion Hhd.
    + eapply IH; eassumption.
Qed.

(** ** The history view-model *)

Arguments ChatPage.sortItems : simpl never.

Section History.

Import ApiClient Types ChatPage.

Variable Date_getTime : jsstring -> option Z.

Lemma before_notOlder (a b : ChatHistoryItem) :
  dated Date_getTime a -> dated Date_getTime b ->
  (before (byTimestampDesc Date_getTime) a b <-> notOlder Date_getTime a b).
Proof.
  unfold dated, before, notOlder, SortCompare, byTimestampDesc.
  destruct (Date_getTime (timestamp a)) as [ta|], (Date_getTime (timestamp b)) as [tb|];
    intros Ha Hb; try (now elim Ha); try (now elim Hb).
  lia.
Qed.

Lemma before_total_dated (a b : ChatHistoryItem) :
  dated Date_getTime a -> dated Date_getTime b ->
  before (byTimestampDesc Date_getTime) a b \/ before (byTimestampDesc Date_getTime) b a.
Proof.
  unfold dated, before, SortCompare, byTimestampDesc.
  destruct (Date_getTime (timestamp a)) as [ta|], (Date_getTime (timestamp b)) as [tb|];
    intros Ha Hb; try (now elim Ha); try (now elim Hb).
  lia.
Qed.

Lemma notOlder_trans (a b c : ChatHistoryItem) :
  notOlder Date_getTime a b -> notOlder Date_getTime b c -> notOlder Date_getTime a c.
Proof.
  unfold notOlder.
  destruct (Date_getTime (timestamp a)), (Date_getTime (timestamp b)),
    (Date_getTime (timestamp c)); try tauto. lia.
Qed.

Lemma notOlder_refl (a : ChatHistoryItem) : dated Date_getTime a -> notOlder Date_getTime a a.
Proof.
  unfold dated, notOlder. destruct (Date_getTime (timestamp a)); [lia | intro H; now elim H].
Qed.

Lemma sortItems_perm (res : ChatHistoryResponse) :
  Permutation (items res) (sortItems Date_getTime res).
Proof. apply Array_sort_perm. Qed.

Lemma sortItems_dated (res : ChatHistoryResponse) :
  Forall (dated Date_getTime) (items res) ->
  Forall (dated Date_getTime) (sortItems Date_getTime res).
Proof. apply Permutation_Forall, sortItems_perm. Qed.

Lemma sortItems_Sorted (res : ChatHistoryResponse) :
  Forall (dated Date_getTime) (items res) ->
  Sorted (notOlder Date_getTime) (sortItems Date_getTime res).
Proof.
  intro Hd.
  assert (Hs : Sorted (before (byTimestampDesc Date_getTime)) (sortItems Date_getTime res)).
  { apply Array_sort_Sorted with (ok := dated Date_getTime); [|exact Hd].
    intros x y; apply before_total_dated. }
  pose proof (sortItems_dated res Hd) as Hd'.
  induction Hs as [|x l Hs IH Hhd]; [constructor|].
  inversion Hd' as [|? ? Hx Hl]; subst.
  constructor; [now apply IH|].
  destruct Hhd as [|y r Hxy]; constructor.
  inversion Hl; subst. now apply before_notOlder.
Qed.

Lemma sortItems_descending (res : ChatHistoryResponse) :
  Forall (dated Date_getTime) (items res) -> descending Date_getTime (sortItems Date_getTime res).
Proof.
  intros Hd i a b. apply Sorted_adjacent. now apply sortItems_Sorted.
Qed.

(** Sessions of one timestamp keep the order the server gave them. *)
Lemma sortItems_stable (res : ChatHistoryResponse) (t : Z) :
  Forall (dated Date_getTime) (items res) ->
  filter (fun item => (timeOf Date_getTime item =? t)%Z) (sortItems Date_getTime res)
  = filter (fun item => (timeOf Date_getTime item =? t)%Z) (items res).
Proof.
  apply Array_sort_stable with (ok := dated Date_getTime).
  intros x y Hx Hy.
  unfold dated, before, SortCompare, byTimestampDesc, timeOf in *.
  destruct (Date_getTime (timestamp x)) as [tx|], (Date_getTime (timestamp y)) as [ty|];
    try (now elim Hx); try (now elim Hy).
  lia.
Qed.

(** The first item of the sorted list is the most recent of all. *)
Lemma sortItems_head_most_recent (res : ChatHistoryResponse) (first : ChatHistoryItem)
    (rest : list ChatHistoryItem) :
  Forall (dated Date_getTime) (items res) ->
  sortItems Date_getTime res = first :: rest ->
  forall item, In item (items res) -> notOlder Date_getTime first item.
Proof.
  intros Hd E item Hin.
  pose proof (sortItems_Sorted res Hd) as Hs.
  pose proof (sortItems_dated res Hd) as Hd'.
  rewrite E in Hs, Hd'.
  apply Sorted_StronglySorted in Hs; [| intros a b c; apply notOlder_trans].
  inversion Hs as [|? ? _ Hall]; subst.
  inversion Hd' as [|? ? Hfirst _]; subst.
  assert (Hin' : In item (first :: rest)).
  { rewrite <- E. eapply Permutation_in; [apply sortItems_perm | exact Hin]. }
  destruct Hin' as [<-|Hin']; [now apply notOlder_refl|].
  rewrite Forall_forall in Hall. now apply Hall.
Qed.

Ltac open_page p :=
  let w := fresh "w" in
  let v := fresh "v" in
  destruct p as [w v ?routes];
  open_world w;
  destruct v as [?hist ?sel ?loading ?err ?online ?busy].

(** What the three handlers leave in the component state when every call
    is answered with success. *)
Lemma loadHistory_fulfilled (res : ChatHistoryResponse) (p : Page) :
  view (exec (loadHistory Date_getTime (Fulfilled res)) p)
  = {| history := sortItems Date_getTime res;
       selectedChatId :=
         match sortItems Date_getTime res with
         | first :: _ =>
             if truthy_opt (selectedChatId (view p))
             then selectedChatId (view p)
             else Some (chat_id first)
         | [] => selectedChatId (view p)
         end;
       isLoadingHistory := false;
       error := [];
       isServerOnline := isServerOnline (view p);
       isActionLoading := isActionLoading (view p) |}.
Proof.
  open_page p; unfold exec.
  all: cbv -[ChatPage.sortItems js app].
  all: destruct (sortItems Date_getTime res) as [|first rest]; try reflexivity.
  all: destruct sel as [[|? ?]|]; reflexivity.
Qed.

Lemma handleNewChat_fulfilled (rc : ChatApi.CloseResp) (rn : ChatApi.NewChatResp)
    (res : ChatHistoryResponse) (p : Page) :
  view (exec (handleNewChat Date_getTime (Fulfilled rc) (Fulfilled rn) (Fulfilled res)) p)
  = {| history := sortItems Date_getTime res;
       selectedChatId := Some (ChatApi.new_chat_id rn);
       isLoadingHistory := isLoadingHistory (view p);
       error := [];
       isServerOnline := isServerOnline (view p);
       isActionLoading := false |}.
Proof.
  open_page p; reflexivity.
Qed.

Lemma handleCloseChat_fulfilled (rc : ChatApi.CloseResp)
    (res : ChatHistoryResponse) (p : Page) :
  truthy_opt (selectedChatId (view p)) = true ->
  view (exec (handleCloseChat Date_getTime (Fulfilled rc) (Fulfilled res)) p)
  = {| history := sortItems Date_getTime res;
       selectedChatId :=
         match sortItems Date_getTime res with
         | first :: _ => Some (chat_id first)
         | [] => None
         end;
       isLoadingHistory := isLoadingHistory (view p);
       error := [];
       isServerOnline := isServerOnline (view p);
       isActionLoading := false |}.
Proof.
  open_page p; destruct sel as [[|? ?]|]; try discriminate; reflexivity.
Qed.

(** Without a selected session [handleCloseChat] does nothing. *)
Lemma handleCloseChat_unselected (r_close : Reply ChatApi.CloseResp)
    (r_hist : Reply ChatHistoryResponse) (p : Page) :
  truthy_opt (selectedChatId (view p)) = false ->
  exec (handleCloseChat Date_getTime r_close r_hist) p = p.
Proof.
  destruct p as [w [hist [[|? ?]|] loading err online busy] routes];
    try discriminate; reflexivity.
Qed.

(** C6: whenever a history is fetched with success (on load, after a new
    chat, after a closed chat) and the timestamps of its items are dates,
    the displayed list holds the server's items, reordered so that each
    item's timestamp is at or after the next item's. *)
Theorem displayed_history_descending (res : ChatHistoryResponse) (p : Page) :
  Forall (dated Date_getTime) (items res) ->
  (Permutation (items res)
     (history (view (exec (loadHistory Date_getTime (Fulfilled res)) p)))
   /\ descending Date_getTime
     (history (view (exec (loadHistory Date_getTime (Fulfilled res)) p))))
  /\ (forall rc rn,
      Permutation (items res)
        (history (view (exec (handleNewChat Date_getTime (Fulfilled rc) (Fulfilled rn)
                                (Fulfilled res)) p)))
      /\ descending Date_getTime
        (history (view (exec (handleNewChat Date_getTime (Fulfilled rc) (Fulfilled rn)
                                (Fulfilled res)) p))))
  /\ (forall rc,
      truthy_opt (selectedChatId (view p)) = true ->
      Permutation (items res)
        (history (view (exec (handleCloseChat Date_getTime (Fulfilled rc) (Fulfilled res)) p)))
      /\ descending Date_getTime
        (history (view (exec (handleCloseChat Date_getTime (Fulfilled rc) (Fulfilled res)) p)))).
Proof.
  intro Hd.
  pose proof (sortItems_perm res) as Hp.
  pose proof (sortItems_descending res Hd) as Hs.
  split; [| split].
  - rewrite loadHistory_fulfilled. simpl. now split.
  - intros rc rn. rewrite handleNewChat_fulfilled. simpl. now split.
  - intros rc Hsel. rewrite (handleCloseChat_fulfilled rc res p Hsel). simpl. now split.
Qed.

(** C7: after a successful "new chat" the selected session is the
    [chat_id] that [newChat] returned, whatever the refreshed history holds
    and in whatever order; after a successful "close chat" the selected
    session is the first of the refreshed, sorted history (none when that
    history is empty), and when the timestamps are dates no session of the
    refreshed history is more recent than it. *)
Theorem selection_after_new_and_close (rc : ChatApi.CloseResp)
    (res : ChatHistoryResponse) (p : Page) :
  (forall rn,
      selectedChatId (view (exec (handleNewChat Date_getTime (Fulfilled rc) (Fulfilled rn)
                                    (Fulfilled res)) p))
      = Some (ChatApi.new_chat_id rn))
  /\ (truthy_opt (selectedChatId (view p)) = true ->
      (items res = [] ->
         selectedChatId
           (view (exec (handleCloseChat Date_getTime (Fulfilled rc) (Fulfilled res)) p))
         = None)
      /\ (items res <> [] ->
         exists first,
           head (history
                   (view (exec (handleCloseChat Date_getTime (Fulfilled rc) (Fulfilled res)) p)))
           = Some first
           /\ In first (items res)
           /\ selectedChatId
                (view (exec (handleCloseChat Date_getTime (Fulfilled rc) (Fulfilled res)) p))
              = Some (chat_id first)
           /\ (Forall (dated Date_getTime) (items res) ->
               forall item, In item (items res) -> notOlder Date_getTime first item))).
Proof.
  split.
  - intro rn. now rewrite handleNewChat_fulfilled.
  - intro Hsel. rewrite (handleCloseChat_fulfilled rc res p Hsel). simpl.
    pose proof (sortItems_perm res) as Hp.
    split.
    + intro E. rewrite E in Hp. apply Permutation_nil in Hp. now rewrite Hp.
    + intro Hne.
      destruct (sortItems Date_getTime res) as [|first rest] eqn:E.
      * apply Permutation_sym, Permutation_nil in Hp. now elim Hne.
      * exists first. simpl. repeat split.
        -- eapply Permutation_in; [apply Permutation_sym, Hp | now left].
        -- intros Hd item Hin.
           exact (sortItems_head_most_recent res first rest Hd E item Hin).
Qed.

(** C9: "new chat" first posts [/chat/close] for the selected session
    ([chat_id] is [null] when none is selected) and posts [/chat/new] only
    after that call has been answered with success; when the close call is
    rejected no other request is made. *)
Theorem newChat_closes_current_first (r_close : Reply ChatApi.CloseResp)
    (r_new : Reply ChatApi.NewChatResp) (r_hist : Reply ChatHistoryResponse)
    (p : Page) :
  exists closeReq rest,
    wire (world (exec (handleNewChat Date_getTime r_close r_new r_hist) p))
    = wire (world p) ++ closeReq :: rest
    /\ method closeReq = POST
    /\ url closeReq = js "/chat/close"
    /\ body closeReq
       = JsonBody (JObject
           [(js "chat_id",
             match selectedChatId (view p) with
             | Some c => JString c
             | None => JNull
             end)])
    /\ match r_close with
       | Fulfilled _ =>
           exists newReq rest',
             rest = newReq :: rest'
             /\ method newReq = POST
             /\ url newReq = js "/chat/new"
             /\ body newReq = JsonBody (JObject [])
       | _ => rest = []
       end.
Proof.
  open_page p.
  all: destruct r_close as [dc | sc dc |];
    [ destruct r_new as [dn | sn dn |];
      [ destruct r_hist as [dh | sh dh |]; [| destruct (sh =? 401)%Z eqn:Eh |]
      | destruct (sn =? 401)%Z eqn:En | ]
    | destruct (sc =? 401)%Z eqn:Ec | ].
  all: unfold exec; cbv -[Z.eqb js app ChatPage.sortItems];
    rewrite ?Eh, ?En, ?Ec; cbv -[Z.eqb js app ChatPage.sortItems];
    rewrite <- ?app_assoc; simpl.
  all: eexists; eexists; split; [reflexivity|].
  all: repeat split.
  all: eexists; eexists; repeat split.
Qed.

End History.

(** *** A worked history *)

Section HistoryExample.

Import ApiClient Types ChatPage.

Lemma sampleHistory_dated : Forall (dated sampleClock) (items sampleHistory).
Proof. repeat constructor; discriminate. Qed.

(** The sample history comes out most recent first. *)
Lemma displayed_history_descending_witness :
  Forall (dated sampleClock) (items sampleHistory)
  /\ map chat_id
       (history (view (exec (loadHistory sampleClock (Fulfilled sampleHistory)) samplePage)))
     = [js "s3"; js "abc123"; js "s1"]
  /\ descending sampleClock
       (history (view (exec (loadHistory sampleClock (Fulfilled sampleHistory)) samplePage))).
Proof.
  split; [exact sampleHistory_dated|].
  split; [reflexivity|].
  exact (proj2 (proj1 (displayed_history_descending sampleClock sampleHistory samplePage
                         sampleHistory_dated))).
Defined.

(** The scenario of the specification: [newChat] answers ["abc123"] while
    the sort puts ["s3"] first; and closing ["s1"] selects ["s3"]. *)
Lemma selection_after_new_and_close_witness :
  truthy_opt (selectedChatId (view samplePage)) = true
  /\ head (history (view (exec (handleNewChat sampleClock
                                  (Fulfilled {| ChatApi.closed := true; ChatApi.error := None |})
                                  (Fulfilled {| ChatApi.new_chat_id := js "abc123" |})
                                  (Fulfilled sampleHistory)) samplePage)))
     = Some (session "s3" "2024-05-02T10:00:00Z")
  /\ selectedChatId (view (exec (handleNewChat sampleClock
                                  (Fulfilled {| ChatApi.closed := true; ChatApi.error := None |})
                                  (Fulfilled {| ChatApi.new_chat_id := js "abc123" |})
                                  (Fulfilled sampleHistory)) samplePage))
     = Some (js "abc123")
  /\ selectedChatId (view (exec (handleCloseChat sampleClock
                                  (Fulfilled {| ChatApi.closed := true; ChatApi.error := None |})
                                  (Fulfilled {| items := [] |})) samplePage))
     = None.
Proof.
  assert (H : truthy_opt (selectedChatId (view samplePage)) = true) by reflexivity.
  split; [exact H|].
  split; [reflexivity|].
  split.
  - exact (proj1 (selection_after_new_and_close sampleClock
                    {| ChatApi.closed := true; ChatApi.error := None |}
                    sampleHistory samplePage)
                 {| ChatApi.new_chat_id := js "abc123" |}).
  - exact (proj1 (proj2 (selection_after_new_and_close sampleClock
                           {| ChatApi.closed := true; ChatApi.error := None |}
                           {| items := [] |} samplePage) H)
                 eq_refl).
Defined.

End HistoryExample.

(** ** The conversation view-model *)

Section Conversation.

Import ApiClient Types ChatWindow.

Ltac open_sys s :=
  let w := fresh "w" in
  let u := fresh "u" in
  destruct s as [w u ?waiting ?told];
  open_world w;
  destruct u as [?shown ?input ?sending ?err].

(** [handleSend] returns at its guard: nothing changes. *)
Lemma handleSend_refused (s : Sys) :
  negb (truthy (trim (message (ui s)))) || isSending (ui s) = true ->
  exec handleSend s = s.
Proof.
  intro G. destruct s as [w [shown input sending err] waiting told].
  simpl in G. unfold exec, handleSend, bind, gets. simpl. rewrite G. reflexivity.
Qed.

(** [handleSend] passes its guard: the user's message is shown, the input
    is emptied, the request leaves and the handler waits. *)
Lemma handleSend_accepted (s : Sys) :
  trim (message (ui s)) <> [] ->
  isSending (ui s) = false ->
  exists req,
    exec handleSend s
    = {| world := transmit req (world s);
         ui := {| currentMessages :=
                    currentMessages (ui s)
                    ++ [{| role := user; text := trim (message (ui s)) |}];
                  message := [];
                  isSending := true;
                  error := [] |};
         inFlight := inFlight s ++ [{| trimmedMessage := trim (message (ui s)) |}];
         notified := notified s |}
    /\ method req = POST
    /\ url req = js "/chat/message"
    /\ body req = JsonBody (JObject [(js "message", JString (trim (message (ui s))))]).
Proof.
  intros Hne Hidle. apply truthy_true_iff in Hne.
  open_sys s; simpl in Hne, Hidle; subst sending.
  all: unfold exec, handleSend, bind, gets; simpl; rewrite Hne; simpl.
  all: eexists; split; [reflexivity|]; repeat split.
Qed.

(** The continuation of a rejected send. *)
Lemma resume_rejected (k : Suspended) (r : Reply ChatApi.SendResp) (s : Sys) :
  rejects r = true ->
  currentMessages (ui (exec (handleSend_resume k r) s))
  = slice_0_minus1 (currentMessages (ui s))
  /\ message (ui (exec (handleSend_resume k r) s)) = trimmedMessage k
  /\ isSending (ui (exec (handleSend_resume k r) s)) = false
  /\ inFlight (exec (handleSend_resume k r) s) = inFlight s
  /\ notified (exec (handleSend_resume k r) s) = notified s.
Proof.
  intro Hr. destruct r as [d | status d |]; [discriminate | |].
  - open_sys s; destruct (status =? 401)%Z eqn:E;
      unfold exec; cbv -[Z.eqb js app slice_0_minus1 msg_sendFailed];
      rewrite E; repeat split.
  - open_sys s; repeat split.
Qed.

(** The continuation of a successful send. *)
Lemma resume_fulfilled (k : Suspended) (d : ChatApi.SendResp) (s : Sys) :
  exec (handleSend_resume k (Fulfilled d)) s
  = {| world := world s;
       ui := {| currentMessages :=
                  currentMessages (ui s) ++ [{| role := bot; text := ChatApi.reply d |}];
                message := message (ui s);
                isSending := false;
                error := error (ui s) |};
       inFlight := inFlight s;
       notified := notified s ++ [(trimmedMessage k, ChatApi.reply d)] |}.
Proof.
  open_sys s; reflexivity.
Qed.

(** While a send waits for its answer, typing, further submits and
    changes of the history prop leave it waiting; typing and submits also
    leave the displayed messages alone. *)
Lemma waiting_step (e : Event) (s : Sys) :
  isSending (ui s) = true ->
  notAnswer e = true ->
  exists s', step e s = Some s'
    /\ isSending (ui s') = true
    /\ inFlight s' = inFlight s
    /\ wire (world s') = wire (world s)
    /\ (quiet e = true -> currentMessages (ui s') = currentMessages (ui s)).
Proof.
  intros Hs He. destruct e as [v | | h | n r]; try discriminate; simpl.
  - eexists; split; [reflexivity|].
    destruct s as [w [shown input sending err] waiting told]; simpl in *. auto.
  - rewrite handleSend_refused by (rewrite Hs; apply orb_true_r).
    eexists; split; [reflexivity|]. auto.
  - eexists; split; [reflexivity|].
    destruct s as [w [shown input sending err] waiting told], h as [h|];
      simpl in *; repeat split; auto; discriminate.
Qed.

Lemma waiting_run (es : list Event) (s : Sys) :
  isSending (ui s) = true ->
  forallb notAnswer es = true ->
  exists s', run es s = Some s'
    /\ isSending (ui s') = true
    /\ inFlight s' = inFlight s
    /\ wire (world s') = wire (world s)
    /\ (forallb quiet es = true -> currentMessages (ui s') = currentMessages (ui s)).
Proof.
  revert s. induction es as [|e es IH]; intros s Hs Hes; simpl.
  - exists s. auto.
  - simpl in Hes. apply andb_true_iff in Hes. destruct Hes as [He Hes].
    destruct (waiting_step e s Hs He) as [s1 [E [Hs1 [Hf [Hw Hq]]]]].
    rewrite E.
    destruct (IH s1 Hs1 Hes) as [s2 [E2 [Hs2 [Hf2 [Hw2 Hq2]]]]].
    exists s2. split; [exact E2|]. split; [exact Hs2|].
    split; [congruence|]. split; [congruence|].
    intro Q. apply andb_true_iff in Q. destruct Q as [Qe Qes].
    rewrite (Hq2 Qes). exact (Hq Qe).
Qed.

Lemma quiet_notAnswer (es : list Event) :
  forallb quiet es = true -> forallb notAnswer es = true.
Proof.
  induction es as [|e es IH]; simpl; [reflexivity|].
  intro H. apply andb_true_iff in H. destruct H as [He Hes].
  rewrite (IH Hes). destruct e; try discriminate; reflexivity.
Qed.

Lemma step_idleOrSending (e : Event) (s s' : Sys) :
  idleOrSending s -> step e s = Some s' -> idleOrSending s'.
Proof.
  intros Inv E. destruct e as [v | | h | n r]; simpl in E.
  - injection E as <-.
    destruct s as [w [shown input sending err] waiting told]. exact Inv.
  - injection E as <-.
    destruct (negb (truthy (trim (message (ui s)))) || isSending (ui s)) eqn:G.
    + now rewrite handleSend_refused.
    + apply orb_false_iff in G. destruct G as [G1 G2].
      apply negb_false_iff, truthy_true_iff in G1.
      destruct (handleSend_accepted s G1 G2) as [req [-> _]].
      destruct Inv as [[_ Hf] | [Hs _]]; [|congruence].
      right. simpl. rewrite Hf. split; [reflexivity|]. now eexists.
  - injection E as <-.
    destruct s as [w [shown input sending err] waiting told], h as [h|]; exact Inv.
  - destruct (nth_error (inFlight s) n) as [k|] eqn:Ek; [|discriminate].
    injection E as <-.
    destruct Inv as [[_ Hf] | [_ [k0 Hf]]].
    + rewrite Hf in Ek. destruct n; discriminate.
    + rewrite Hf in Ek. destruct n as [|n]; [|destruct n; discriminate].
      left.
      assert (Hw : inFlight (wake 0 s) = []) by (simpl; now rewrite Hf).
      destruct r as [d | status d |].
      * rewrite resume_fulfilled. simpl. auto.
      * destruct (resume_rejected k (Rejected status d) (wake 0 s) eq_refl)
          as [_ [_ [H1 [H2 _]]]]. split; congruence.
      * destruct (resume_rejected k NoResponse (wake 0 s) eq_refl)
          as [_ [_ [H1 [H2 _]]]]. split; congruence.
Qed.

Lemma run_idleOrSending (es : list Event) (s s' : Sys) :
  idleOrSending s -> run es s = Some s' -> idleOrSending s'.
Proof.
  revert s. induction es as [|e es IH]; intros s Inv E; simpl in E.
  - now injection E as <-.
  - destruct (step e s) as [s1|] eqn:E1; [|discriminate].
    exact (IH s1 (step_idleOrSending e s s1 Inv E1) E).
Qed.

(** C4: whatever events the conversation view receives after it is
    mounted, at most one send is in flight; a submit while one is in flight
    changes nothing, and a submit with empty or whitespace-only input
    changes nothing either: no request, no pending send. *)
Theorem one_send_in_flight (w : World) (es : list Event) (s : Sys) :
  run es (mount w) = Some s ->
  List.length (inFlight s) <= 1
  /\ (inFlight s <> [] -> step Submit s = Some s)
  /\ (forallb isWhiteSpace (message (ui s)) = true -> step Submit s = Some s).
Proof.
  intro E.
  assert (Inv : idleOrSending s).
  { apply (run_idleOrSending es (mount w) s); [left; split; reflexivity | exact E]. }
  split; [| split].
  - destruct Inv as [[_ ->] | [_ [k ->]]]; simpl; lia.
  - intro Hne. simpl. f_equal. apply handleSend_refused.
    destruct Inv as [[_ Hf] | [Hs _]]; [now elim Hne|].
    rewrite Hs. apply orb_true_r.
  - intro Hws. simpl. f_equal. apply handleSend_refused.
    apply trim_nil_iff in Hws. rewrite Hws. reflexivity.
Qed.

(** C1, amended: a send starts in an idle view whose input is not blank.
    The user's message is appended at once and stays the last message while
    the call is pending (typing and further submits may happen meanwhile).
    If the call is rejected, the message list is again the list from before
    the send and the input holds the trimmed text that was sent; if it
    succeeds, the bot's reply is appended after the user's message. *)
Theorem failed_send_rolls_back (s : Sys) (es : list Event) :
  isSending (ui s) = false ->
  inFlight s = [] ->
  trim (message (ui s)) <> [] ->
  forallb quiet es = true ->
  exists s2,
    run (Submit :: es) s = Some s2
    /\ currentMessages (ui s2)
       = currentMessages (ui s) ++ [{| role := user; text := trim (message (ui s)) |}]
    /\ (forall r, rejects r = true ->
         exists s3,
           step (Answer 0 r) s2 = Some s3
           /\ currentMessages (ui s3) = currentMessages (ui s)
           /\ message (ui s3) = trim (message (ui s))
           /\ isSending (ui s3) = false
           /\ inFlight s3 = [])
    /\ (forall d,
         exists s3,
           step (Answer 0 (Fulfilled d)) s2 = Some s3
           /\ currentMessages (ui s3)
              = currentMessages (ui s)
                ++ [{| role := user; text := trim (message (ui s)) |};
                    {| role := bot; text := ChatApi.reply d |}]
           /\ isSending (ui s3) = false
           /\ inFlight s3 = []).
Proof.
  intros Hidle Hnone Hne Hq.
  destruct (handleSend_accepted s Hne Hidle) as [req [E1 _]].
  assert (Hs1 : isSending (ui (exec handleSend s)) = true) by now rewrite E1.
  destruct (waiting_run es (exec handleSend s) Hs1 (quiet_notAnswer es Hq))
    as [s2 [E2 [Hs2 [Hf2 [_ Hm2]]]]].
  specialize (Hm2 Hq). rewrite E1 in Hf2, Hm2. simpl in Hf2, Hm2.
  rewrite Hnone in Hf2. simpl in Hf2.
  exists s2. split; [exact E2|]. split; [exact Hm2|].
  assert (Hw : inFlight (wake 0 s2) = []) by (simpl; now rewrite Hf2).
  assert (Hu : ui (wake 0 s2) = ui s2) by reflexivity.
  split.
  - intros r Hr. simpl. rewrite Hf2. simpl.
    eexists; split; [reflexivity|].
    destruct (resume_rejected {| trimmedMessage := trim (message (ui s)) |} r
                (wake 0 s2) Hr) as [H1 [H2 [H3 [H4 _]]]].
    rewrite H1, H2, H3, H4, Hu, Hm2. unfold slice_0_minus1.
    rewrite removelast_last. auto.
  - intro d. simpl. rewrite Hf2. simpl.
    eexists; split; [reflexivity|].
    rewrite resume_fulfilled. simpl. rewrite Hm2, Hf2, <- app_assoc. auto.
Qed.

(** C10: the text a send works with is the trimmed input: it is the text
    of the message shown at once, the [message] field of the request body,
    and, whatever happens to the view while the call is pending, the text
    put back into the input when the call is rejected. *)
Theorem send_uses_trimmed_text (s : Sys) (es : list Event) :
  isSending (ui s) = false ->
  inFlight s = [] ->
  trim (message (ui s)) <> [] ->
  forallb notAnswer es = true ->
  (exists s1 req,
      step Submit s = Some s1
      /\ currentMessages (ui s1)
         = currentMessages (ui s) ++ [{| role := user; text := trim (message (ui s)) |}]
      /\ wire (world s1) = wire (world s) ++ [req]
      /\ url req = js "/chat/message"
      /\ body req = JsonBody (JObject [(js "message", JString (trim (message (ui s))))]))
  /\ (exists s2,
      run (Submit :: es) s = Some s2
      /\ wire (world s2) = wire (world (exec handleSend s))
      /\ forall r, rejects r = true ->
           exists s3,
             step (Answer 0 r) s2 = Some s3
             /\ message (ui s3) = trim (message (ui s))).
Proof.
  intros Hidle Hnone Hne Hq.
  destruct (handleSend_accepted s Hne Hidle) as [req [E1 [_ [Hurl Hbody]]]].
  split.
  - exists (exec handleSend s), req. split; [reflexivity|]. rewrite E1. simpl. auto.
  - assert (Hs1 : isSending (ui (exec handleSend s)) = true) by now rewrite E1.
    destruct (waiting_run es (exec handleSend s) Hs1 Hq)
      as [s2 [E2 [Hs2 [Hf2 [Hw2 _]]]]].
    exists s2. split; [exact E2|]. split; [exact Hw2|].
    intros r Hr. simpl. rewrite Hf2, E1. simpl. rewrite Hnone. simpl.
    eexists; split; [reflexivity|].
    now destruct (resume_rejected {| trimmedMessage := trim (message (ui s)) |} r
                    (wake 0 s2) Hr) as [_ [H2 _]].
Qed.

End Conversation.

(** *** A worked conversation *)

Section ConversationExample.

Import ApiClient Types ChatWindow.

Lemma conversation_input_not_blank : trim (message (ui conversation)) <> [].
Proof. discriminate. Qed.

(** A blank submit, then a real one, then two more while it is pending:
    one request has left. *)
Lemma one_send_in_flight_witness :
  exists s,
    run [History None; Change (js "  "); Submit; Change (js "hi"); Submit; Submit]
        (mount browser) = Some s
    /\ List.length (inFlight s) <= 1
    /\ List.length (wire (world s)) = 1.
Proof.
  eexists. split; [reflexivity|].
  split; [| reflexivity].
  exact (proj1 (one_send_in_flight browser
                  [History None; Change (js "  "); Submit; Change (js "hi"); Submit; Submit]
                  _ eq_refl)).
Defined.

(** C1, as stated, fails on the input text: the field held the question
    with blanks around it, and after the rejected send it holds the
    question without them. *)
Lemma restored_input_is_trimmed :
  exists s3,
    run [Submit; Answer 0 NoResponse] conversation = Some s3
    /\ currentMessages (ui s3) = currentMessages (ui conversation)
    /\ message (ui conversation) = js "  j'ai mal  "
    /\ message (ui s3) = js "j'ai mal"
    /\ message (ui s3) <> message (ui conversation).
Proof.
  eexists. split; [reflexivity|]. repeat split. discriminate.
Qed.

(** The sample conversation: a send, typing and a second submit while it
    is pending, then no response. *)
Lemma failed_send_rolls_back_witness :
  isSending (ui conversation) = false
  /\ inFlight conversation = []
  /\ trim (message (ui conversation)) = js "j'ai mal"
  /\ exists s2,
       run [Submit; Change (js "x"); Submit] conversation = Some s2
       /\ exists s3,
            step (Answer 0 NoResponse) s2 = Some s3
            /\ currentMessages (ui s3) = currentMessages (ui conversation)
            /\ message (ui s3) = js "j'ai mal".
Proof.
  split; [reflexivity|]. split; [reflexivity|]. split; [reflexivity|].
  destruct (failed_send_rolls_back conversation [Change (js "x"); Submit]
              eq_refl eq_refl conversation_input_not_blank eq_refl)
    as [s2 [E [_ [Hrej _]]]].
  exists s2. split; [exact E|].
  destruct (Hrej NoResponse eq_refl) as [s3 [E3 [H1 [H2 _]]]].
  exists s3. split; [exact E3|]. split; [exact H1 | exact H2].
Defined.

(** The sample conversation: a send, another session shown and typing
    while it is pending, then a status 500. *)
Lemma send_uses_trimmed_text_witness :
  isSending (ui conversation) = false
  /\ inFlight conversation = []
  /\ trim (message (ui conversation)) = js "j'ai mal"
  /\ exists s2,
       run [Submit; History (Some otherSession); Change (js "x")] conversation = Some s2
       /\ exists s3,
            step (Answer 0 (Rejected 500 {| detail := None; ApiClient.message := None |})) s2
            = Some s3
            /\ message (ui s3) = js "j'ai mal".
Proof.
  split; [reflexivity|]. split; [reflexivity|]. split; [reflexivity|].
  destruct (send_uses_trimmed_text conversation [History (Some otherSession); Change (js "x")]
              eq_refl eq_refl conversation_input_not_blank eq_refl)
    as [_ [s2 [E [_ Hrej]]]].
  exists s2. split; [exact E|].
  exact (Hrej (Rejected 500 {| detail := None; ApiClient.message := None |}) eq_refl).
Defined.

(** The rollback removes the last message of whatever list is displayed
    when the rejection arrives.  If the history prop changed while the call
    was pending, that list is the one the effect installed, and its own
    last message is the one removed. *)
Lemma rollback_is_positional (s : Sys) (h : ChatHistoryItem)
    (r : Reply ChatApi.SendResp) :
  isSending (ui s) = false ->
  inFlight s = [] ->
  trim (message (ui s)) <> [] ->
  rejects r = true ->
  exists s3,
    run [Submit; History (Some h); Answer 0 r] s = Some s3
    /\ currentMessages (ui s3) = removelast (messages h).
Proof.
  intros Hidle Hnone Hne Hr.
  destruct (handleSend_accepted s Hne Hidle) as [req [E1 _]].
  simpl. rewrite E1. simpl. rewrite Hnone. simpl.
  eexists; split; [reflexivity|].
  match goal with
  | |- currentMessages (ui (exec (handleSend_resume ?k r) ?s0)) = _ =>
      destruct (resume_rejected k r s0 Hr) as [H1 _]; rewrite H1
  end.
  reflexivity.
Qed.

End ConversationExample.

(* ===================================================================== *)
(** * Part III: more of the code *)
(* ===================================================================== *)

(** ** The gateway: requests, headers, errors *)

Section GatewayMore.

Import ApiClient Types AuthStore.

Ltac run_call r :=
  destruct r as [?d | ?status ?d |];
  [ | match goal with st : Z |- _ => destruct (st =? 401)%Z eqn:? end | ];
  unfold Backend.perform, exec; cbv -[Z.eqb js app];
  try (match goal with H : (_ =? 401)%Z = _ |- _ => rewrite H end;
       cbv -[Z.eqb js app]).

(** What an operation sends, in full. *)
Lemma request_of_operation (T : Type) (op : Backend.Operation T)
    (r : Reply T) (w : World) :
  exists req,
    wire (Backend.perform op r w) = wire w ++ [req]
    /\ (method req, url req) = Backend.route op
    /\ timeout req = Backend.timeLimit op
    /\ baseURL req = API_BASE_URL w
    /\ authorization req = Backend.bearer (state (store w)).
Proof.
  destruct op; open_world w; run_call r; eexists; repeat split.
Qed.

(** Every operation puts exactly one request on the wire, whatever the
    backend answers: nothing is retried, and the requests sent before stay
    as they were.  The request goes to the operation's own method and path
    under the configured base URL, with a time limit of 20 s (5 s for the
    health probe). *)
Theorem one_request_per_operation (T : Type) (op : Backend.Operation T)
    (r : Reply T) (w : World) :
  exists req,
    wire (Backend.perform op r w) = wire w ++ [req]
    /\ (method req, url req) = Backend.route op
    /\ timeout req = Backend.timeLimit op
    /\ baseURL req = API_BASE_URL w.
Proof.
  destruct (request_of_operation T op r w) as [req [H1 [H2 [H3 [H4 _]]]]].
  exists req. auto.
Qed.

(** The request of every operation carries [Authorization: Bearer <token>]
    exactly when the store holds a non-empty token at the time of the
    call; with no token, or the empty string for one, it carries no
    [Authorization] header. *)
Theorem bearer_token_attached (T : Type) (op : Backend.Operation T)
    (r : Reply T) (w : World) :
  exists req,
    wire (Backend.perform op r w) = wire w ++ [req]
    /\ (forall t, token (state (store w)) = Some t -> t <> [] ->
        authorization req = Some (js "Bearer " ++ t))
    /\ (truthy_opt (token (state (store w))) = false -> authorization req = None).
Proof.
  destruct (request_of_operation T op r w) as [req [H1 [_ [_ [_ H5]]]]].
  exists req. split; [exact H1|]. rewrite H5. unfold Backend.bearer.
  split.
  - intros t -> Hne. destruct t; [now elim Hne | reflexivity].
  - destruct (token (state (store w))) as [[|? ?]|]; simpl; congruence.
Qed.

(** A response with status 401 is the only answer with an effect outside
    the call: after an accepted response, a response with any other
    status, or no response at all, the session store (state and stored
    record) and the window location are what they were. *)
Theorem only_401_touches_session (T : Type) (op : Backend.Operation T)
    (r : Reply T) (w : World) :
  (forall d, r <> Rejected 401 d) ->
  store (Backend.perform op r w) = store w
  /\ window_href (Backend.perform op r w) = window_href w
  /\ VITE_API_BASE_URL (Backend.perform op r w) = VITE_API_BASE_URL w.
Proof.
  intro Hr.
  assert (H401 : forall status d, r = Rejected status d -> (status =? 401)%Z = false).
  { intros status d ->. destruct (Z.eqb_spec status 401) as [->|]; [|reflexivity].
    now elim (Hr d). }
  clear Hr.
  destruct op; open_world w.
  all: destruct r as [d | status d |];
    [ | pose proof (H401 status d eq_refl) as E | ].
  all: unfold Backend.perform, exec; cbv -[Z.eqb js app];
    rewrite ?E; repeat split.
Qed.

(** A timeout of the history call of a logged-in browser session. *)
Lemma only_401_touches_session_witness :
  (forall d, @NoResponse ChatHistoryResponse <> Rejected 401 d)
  /\ store (Backend.perform Backend.GetHistory NoResponse browser) = store browser.
Proof.
  assert (H : forall d, @NoResponse ChatHistoryResponse <> Rejected 401 d)
    by (intros d; discriminate).
  split; [exact H|].
  exact (proj1 (only_401_touches_session _ Backend.GetHistory NoResponse browser H)).
Defined.

(** The health probe never throws: it answers [true] when the backend
    gave an accepted response and [false] on every other outcome, a
    timeout and an error status alike. *)
Theorem healthCheck_never_throws (r : Reply unit) (w : World) :
  fst (healthCheck r w)
  = Returned (match r with Fulfilled _ => true | _ => false end).
Proof.
  open_world w; destruct r as [d | status d |];
    try (destruct (status =? 401)%Z eqn:E);
    cbv -[Z.eqb js app]; rewrite ?E; reflexivity.
Qed.

(** Once a 401 has come back, the next request of any operation carries
    no [Authorization] header: the interceptor has emptied the store the
    header is read from. *)
Theorem no_bearer_after_401 (T U : Type) (op : Backend.Operation T)
    (next : Backend.Operation U) (d : ErrorData) (r : Reply U) (w : World) :
  exists req,
    wire (Backend.perform next r (Backend.perform op (Rejected 401 d) w))
    = wire (Backend.perform op (Rejected 401 d) w) ++ [req]
    /\ authorization req = None.
Proof.
  destruct (request_of_operation U next r (Backend.perform op (Rejected 401 d) w))
    as [req [Hw [_ [_ [_ Ha]]]]].
  exists req. split; [exact Hw|]. rewrite Ha.
  assert (Htok : token (state (store (Backend.perform op (Rejected 401 d) w))) = None).
  { destruct op; open_world w; reflexivity. }
  unfold Backend.bearer. now rewrite Htok.
Qed.



End GatewayMore.

(** ** The session store and the route guard *)

Section GuardMore.

Import AuthStore.

(** [loadFromStorage] only ever sets the flag: token and user name stay,
    a second call changes nothing, and on a reachable state that is
    already authenticated the first call changes nothing either. *)
Theorem loadFromStorage_settles (st : Store) :
  token (state (loadFromStorage st)) = token (state st)
  /\ username (state (loadFromStorage st)) = username (state st)
  /\ loadFromStorage (loadFromStorage st) = loadFromStorage st
  /\ (reachable st -> isAuthenticated (state st) = true -> loadFromStorage st = st).
Proof.
  unfold loadFromStorage.
  destruct (truthy_opt (token (state st))) eqn:E; simpl.
  - rewrite E. repeat split.
    intros R Hflag. pose proof (reachable_storageInSync st R) as Hsync.
    unfold storageInSync in Hsync.
    destruct st as [[tok user flag] [p|]]; simpl in *.
    + subst. reflexivity.
    + destruct Hsync as [-> _]. discriminate.
  - rewrite E. repeat split.
Qed.

(** A logout outlives the page: after [logout] and a reload the store is
    back in its initial state, and the mount effect of the guard leaves it
    there. *)
Theorem logout_survives_reload (st : Store) :
  state (reload (logout st)) = initialState
  /\ state (AuthGuard.mountEffect (reload (logout st))) = initialState
  /\ AuthGuard.render (state (AuthGuard.mountEffect (reload (logout st))))
     = AuthGuard.Navigate (js "/login").
Proof.
  repeat split.
Qed.

(** Once its mount effect has run, the guard lets the children render
    exactly when the store holds a non-empty token, whatever the flag was
    before. *)
Theorem guard_admits_by_token (st : Store) :
  AuthGuard.render (state (AuthGuard.mountEffect st)) = AuthGuard.Children
  <-> truthy_opt (token (state st)) = true.
Proof.
  unfold AuthGuard.mountEffect, loadFromStorage, AuthGuard.render.
  destruct (truthy_opt (token (state st))) eqn:E; simpl; rewrite E; simpl.
  - split; reflexivity.
  - rewrite orb_true_r. split; discriminate.
Qed.

(** The render that precedes the mount effect sends a reloaded page to
    [/login], token or not: the store comes back from a reload with the
    flag down. *)
Theorem guard_redirects_before_effect (st : Store) :
  AuthGuard.render (state (reload st)) = AuthGuard.Navigate (js "/login").
Proof.
  unfold reload, create, AuthGuard.render.
  destruct (localStorage st) as [p|]; reflexivity.
Qed.

End GuardMore.

(** ** The sign-in form *)

Section FormMore.

Import ApiClient Types AuthForm.

Ltac open_form f :=
  let w := fresh "w" in
  let v := fresh "v" in
  destruct f as [w v ?routes];
  open_world w;
  destruct v as [?name ?pass ?loading ?err].

(** A submit with a blank user name (empty or whitespace only) or an empty
    password is settled in the form: the "fill in all fields" message is
    shown and nothing else happens, no request, no change of the session,
    no navigation, no loading state. *)
Theorem blank_submit_stays_local (mode : Mode) (r : Reply TokenResponse) (f : Form) :
  forallb isWhiteSpace (username (fields f)) = true \/ password (fields f) = [] ->
  exec (handleSubmit mode r) f
  = {| world := world f;
       fields := {| username := username (fields f);
                    password := password (fields f);
                    isLoading := isLoading (fields f);
                    error := msg_fillAllFields |};
       navigated := navigated f |}.
Proof.
  intro H. destruct f as [w [name pass loading err] routes]. simpl in H.
  unfold exec, handleSubmit, bind, gets. simpl.
  destruct H as [H | ->].
  - apply trim_nil_iff in H. rewrite H. reflexivity.
  - rewrite orb_true_r. reflexivity.
Qed.

(** What a submit with filled fields sends: one request, to [/auth/login]
    as form fields or to [/auth/signup] as JSON according to the mode,
    with the user name trimmed and the password as typed. *)
Theorem submit_sends_trimmed_username (mode : Mode) (r : Reply TokenResponse) (f : Form) :
  trim (username (fields f)) <> [] ->
  password (fields f) <> [] ->
  exists req,
    wire (world (exec (handleSubmit mode r) f)) = wire (world f) ++ [req]
    /\ method req = POST
    /\ match mode with
       | login =>
           url req = js "/auth/login"
           /\ body req = URLSearchParams
                [(js "username", trim (username (fields f)));
                 (js "password", password (fields f))]
       | signup =>
           url req = js "/auth/signup"
           /\ body req = JsonBody (JObject
                [(js "username", JString (trim (username (fields f))));
                 (js "password", JString (password (fields f)))])
       end.
Proof.
  intros Hu Hp. open_form f; simpl in Hu, Hp.
  all: destruct pass as [|c pass]; [now elim Hp|].
  all: destruct (trim name) as [|c' tn] eqn:Et; [now elim Hu|].
  all: destruct mode, r as [d | status d |];
    try (destruct (status =? 401)%Z eqn:E).
  all: unfold exec, handleSubmit; cbv -[trim Z.eqb js app msg_submitFailed];
    rewrite ?Et; cbv -[trim Z.eqb js app msg_submitFailed];
    rewrite ?E; cbv -[trim Z.eqb js app msg_submitFailed].
  all: eexists; repeat split.
Qed.

(** On an accepted response the session store holds the returned
    [access_token] with the trimmed user name and is authenticated, the
    router is sent to [/chat], and the form is neither loading nor showing
    an error. *)
Theorem submit_success_logs_in (mode : Mode) (payload : TokenResponse) (f : Form) :
  trim (username (fields f)) <> [] ->
  password (fields f) <> [] ->
  AuthStore.state (store (world (exec (handleSubmit mode (Fulfilled payload)) f)))
  = {| AuthStore.token := Some (access_token payload);
       AuthStore.username := Some (trim (username (fields f)));
       AuthStore.isAuthenticated := true |}
  /\ navigated (exec (handleSubmit mode (Fulfilled payload)) f)
     = navigated f ++ [js "/chat"]
  /\ isLoading (fields (exec (handleSubmit mode (Fulfilled payload)) f)) = false
  /\ error (fields (exec (handleSubmit mode (Fulfilled payload)) f)) = [].
Proof.
  intros Hu Hp. open_form f; simpl in Hu, Hp.
  all: destruct pass as [|c pass]; [now elim Hp|].
  all: destruct (trim name) as [|c' tn] eqn:Et; [now elim Hu|].
  all: destruct mode.
  all: unfold exec, handleSubmit; cbv -[trim Z.eqb js app];
    rewrite ?Et; cbv -[trim Z.eqb js app].
  all: repeat split.
Qed.


Lemma filledForm_name : trim (username (fields filledForm)) <> [].
Proof. discriminate. Qed.

Lemma filledForm_password : password (fields filledForm) <> [].
Proof. discriminate. Qed.

(** A form with only blanks for a name. *)
Lemma blank_submit_stays_local_witness :
  error (fields (exec (handleSubmit login NoResponse)
                   {| world := world filledForm;
                      fields := {| username := js "   "; password := js "secret";
                                   isLoading := false; error := [] |};
                      navigated := [] |}))
  = msg_fillAllFields.
Proof.
  exact (f_equal (fun x => error (fields x))
           (blank_submit_stays_local login NoResponse
              {| world := world filledForm;
                 fields := {| username := js "   "; password := js "secret";
                              isLoading := false; error := [] |};
                 navigated := [] |}
              (or_introl eq_refl))).
Defined.

(** The login of [" alice "] sends ["alice"]. *)
Lemma submit_sends_trimmed_username_witness :
  exists req,
    wire (world (exec (handleSubmit login (Fulfilled tok1)) filledForm)) = [req]
    /\ body req = URLSearchParams [(js "username", js "alice");
                                   (js "password", js "secret")].
Proof.
  destruct (submit_sends_trimmed_username login (Fulfilled tok1) filledForm
              filledForm_name filledForm_password) as [req [Hw [_ [_ Hb]]]].
  exists req. split; [exact Hw | exact Hb].
Defined.

(** The scenario of the specification: the stub answers ["tok1"]. *)
Lemma submit_success_logs_in_witness :
  AuthStore.token
    (AuthStore.state (store (world (exec (handleSubmit login (Fulfilled tok1)) filledForm))))
  = Some (js "tok1")
  /\ AuthStore.isAuthenticated
       (AuthStore.state (store (world (exec (handleSubmit login (Fulfilled tok1)) filledForm))))
     = true.
Proof.
  pose proof (proj1 (submit_success_logs_in login tok1 filledForm
                       filledForm_name filledForm_password)) as H.
  rewrite H. split; reflexivity.
Defined.


End FormMore.

(** ** The chat page: status check, failures, selection *)

Section PageMore.

Import ApiClient Types ChatPage.

Variable Date_getTime : jsstring -> option Z.

Ltac open_page p :=
  let w := fresh "w" in
  let v := fresh "v" in
  destruct p as [w v ?routes];
  open_world w;
  destruct v as [?hist ?sel ?loading ?err ?online ?busy].

Ltac split_reply r :=
  destruct r as [?d | ?status ?d |];
  [ | match goal with st : Z |- _ => destruct (st =? 401)%Z eqn:? end | ].

Ltac run_page :=
  unfold exec;
  cbv -[Z.eqb js app ChatPage.sortItems errorMessage
        msg_newChatFailed msg_serverUnavailable msg_cannotContact];
  repeat (match goal with H : (_ =? 401)%Z = _ |- _ => rewrite H end;
          cbv -[Z.eqb js app ChatPage.sortItems errorMessage
                msg_newChatFailed msg_serverUnavailable msg_cannotContact]).

(** The status check shows the page as online exactly when the health
    probe was answered with an accepted response.  Otherwise the page is
    offline with the "Serveur indisponible" message, which puts the
    offline screen in place of the chat; the message of the [catch] branch
    is never the one set, since the probe does not throw. *)
Theorem checkServerStatus_outcome (r : Reply unit) (p : Page) :
  view (exec (checkServerStatus r) p)
  = {| history := history (view p);
       selectedChatId := selectedChatId (view p);
       isLoadingHistory := isLoadingHistory (view p);
       error := match r with
                | Fulfilled _ => error (view p)
                | _ => msg_serverUnavailable
                end;
       isServerOnline := match r with Fulfilled _ => true | _ => false end;
       isActionLoading := isActionLoading (view p) |}
  /\ (ChatWindow.rejects r = true ->
      showsOfflineScreen (view (exec (checkServerStatus r) p)) = true)
  /\ (ChatWindow.rejects r = false ->
      showsOfflineScreen (view (exec (checkServerStatus r) p)) = false).
Proof.
  open_page p; split_reply r.
  all: unfold exec;
    cbv -[Z.eqb js app msg_serverUnavailable msg_cannotContact];
    repeat (match goal with H : (_ =? 401)%Z = _ |- _ => rewrite H end;
            cbv -[Z.eqb js app msg_serverUnavailable msg_cannotContact]).
  all: repeat split; try discriminate; reflexivity.
Qed.

(** No failure of the backend leaves a handler of the page as an
    exception: whatever the answers, [loadHistory], [handleNewMessage],
    [handleNewChat], [handleCloseChat], [checkServerStatus] and
    [handleLogout] run to their end. *)
Theorem page_handlers_never_throw (p : Page) :
  (forall r, fst (loadHistory Date_getTime r p) = Returned tt)
  /\ (forall r, fst (handleNewMessage Date_getTime r p) = Returned tt)
  /\ (forall rc rn rh, fst (handleNewChat Date_getTime rc rn rh p) = Returned tt)
  /\ (forall rc rh, fst (handleCloseChat Date_getTime rc rh p) = Returned tt)
  /\ (forall r, fst (checkServerStatus r p) = Returned tt)
  /\ fst (handleLogout p) = Returned tt.
Proof.
  assert (L : forall r, fst (loadHistory Date_getTime r p) = Returned tt).
  { intro r. open_page p; split_reply r; run_page.
    all: try reflexivity.
    all: match goal with
         | |- context [sortItems Date_getTime ?x] =>
             destruct (sortItems Date_getTime x) as [|first rest]
         end; try reflexivity.
    all: destruct sel as [[|? ?]|]; reflexivity. }
  split; [exact L|]. split; [| split; [| split; [| split]]].
  - intro r. unfold handleNewMessage, try_catch, try_catch_finally.
    specialize (L r). destruct (loadHistory Date_getTime r p) as [c p'].
    simpl in L. subst c. reflexivity.
  - intros rc rn rh.
    open_page p;
      (split_reply rc; [split_reply rn; [split_reply rh | | | ] | | | ]);
      run_page; reflexivity.
  - intros rc rh.
    open_page p; destruct sel as [[|? ?]|];
      (split_reply rc; [split_reply rh | | | ]); run_page; reflexivity.
  - intro r. open_page p; split_reply r; run_page; reflexivity.
  - reflexivity.
Qed.




(** The body of the answer to [/chat/close] is not looked at: a close
    that the backend reports as not done ([closed: false], with or without
    an [error]) is handled like one it reports as done, by "new chat" and
    by "close chat" alike, and shows no error. *)
Theorem close_result_is_ignored (rc rc' : ChatApi.CloseResp)
    (rn : Reply ChatApi.NewChatResp) (rh : Reply ChatHistoryResponse) (p : Page) :
  exec (handleNewChat Date_getTime (Fulfilled rc) rn rh) p
  = exec (handleNewChat Date_getTime (Fulfilled rc') rn rh) p
  /\ exec (handleCloseChat Date_getTime (Fulfilled rc) rh) p
     = exec (handleCloseChat Date_getTime (Fulfilled rc') rh) p
  /\ (forall res,
        truthy_opt (selectedChatId (view p)) = true ->
        error (view (exec (handleCloseChat Date_getTime (Fulfilled rc) (Fulfilled res)) p))
        = []).
Proof.
  split; [| split].
  - open_page p; reflexivity.
  - open_page p; destruct sel as [[|? ?]|]; reflexivity.
  - intros res Hsel. now rewrite (handleCloseChat_fulfilled Date_getTime rc res p Hsel).
Qed.

(** The conversation handed to the chat window after an action: after a
    successful "close chat" it is the first session of the refreshed
    history, none when that is empty; after a successful "new chat" it is
    the session of the refreshed history that has the new id, and none
    when the refreshed history does not list that id. *)
Theorem conversation_after_action (rc : ChatApi.CloseResp)
    (res : ChatHistoryResponse) (p : Page) :
  (truthy_opt (selectedChatId (view p)) = true ->
     selectedHistory (view (exec (handleCloseChat Date_getTime (Fulfilled rc)
                                    (Fulfilled res)) p))
     = head (sortItems Date_getTime res))
  /\ (forall rn,
        selectedHistory (view (exec (handleNewChat Date_getTime (Fulfilled rc)
                                       (Fulfilled rn) (Fulfilled res)) p))
        = find (fun item => JS.eqb (chat_id item) (ChatApi.new_chat_id rn))
               (sortItems Date_getTime res))
  /\ (forall rn,
        (forall item, In item (items res) -> chat_id item <> ChatApi.new_chat_id rn) ->
        selectedHistory (view (exec (handleNewChat Date_getTime (Fulfilled rc)
                                       (Fulfilled rn) (Fulfilled res)) p))
        = None).
Proof.
  split; [| split].
  - intro Hsel. rewrite (handleCloseChat_fulfilled Date_getTime rc res p Hsel).
    unfold selectedHistory. simpl.
    destruct (sortItems Date_getTime res) as [|first rest]; [reflexivity|].
    simpl. assert (E : JS.eqb (chat_id first) (chat_id first) = true) by now apply eqb_eq.
    now rewrite E.
  - intro rn. now rewrite handleNewChat_fulfilled.
  - intros rn Hno. rewrite handleNewChat_fulfilled. unfold selectedHistory. simpl.
    destruct (find _ (sortItems Date_getTime res)) as [item|] eqn:E; [|reflexivity].
    apply find_some in E. destruct E as [Hin Heq].
    apply eqb_eq in Heq. exfalso. apply (Hno item); [|exact Heq].
    eapply Permutation_in; [apply Permutation_sym, sortItems_perm | exact Hin].
Qed.

End PageMore.

(** ** Sorting again *)

(** A list that is already in order comes back from the sort as it is. *)
Lemma Array_sort_of_sorted (A : Type) (comparefn : A -> A -> option Z) (l : list A) :
  Sorted (before comparefn) l -> Array_sort comparefn l = l.
Proof.
  induction 1 as [|x l Hs IH Hhd]; [reflexivity|].
  simpl. rewrite IH. destruct Hhd as [|y r Hxy]; [reflexivity|].
  simpl. unfold before in Hxy. apply Z.leb_le in Hxy. now rewrite Hxy.
Qed.

Section SortMore.

Import ApiClient Types ChatPage.

Variable Date_getTime : jsstring -> option Z.

(** Sorting the displayed history again changes nothing: a refresh that
    returns the sessions in the order shown leaves that order. *)
Theorem resort_is_identity (res : ChatHistoryResponse) :
  Forall (dated Date_getTime) (items res) ->
  sortItems Date_getTime {| items := sortItems Date_getTime res |}
  = sortItems Date_getTime res.
Proof.
  intro Hd. unfold sortItems at 1. simpl.
  apply Array_sort_of_sorted.
  apply Array_sort_Sorted with (ok := dated Date_getTime); [|exact Hd].
  intros x y. apply before_total_dated.
Qed.

End SortMore.

Section PageExamples.

Import ApiClient Types ChatPage.

Lemma tiedHistory_dated : Forall (dated sampleClock) (items tiedHistory).
Proof. repeat constructor; discriminate. Qed.

(** Sessions ["a"] and ["b"] share a timestamp and stay in that order. *)
Lemma sortItems_stable_witness :
  map chat_id (sortItems sampleClock tiedHistory) = [js "a"; js "b"; js "s1"]
  /\ filter (fun item => (timeOf sampleClock item =? 1714554000000)%Z)
            (sortItems sampleClock tiedHistory)
     = [session "a" "2024-05-01T09:00:00Z"; session "b" "2024-05-01T09:00:00Z"].
Proof.
  split; [reflexivity|].
  rewrite (sortItems_stable sampleClock tiedHistory 1714554000000 tiedHistory_dated).
  reflexivity.
Defined.

Lemma resort_is_identity_witness :
  map chat_id (sortItems sampleClock {| items := sortItems sampleClock sampleHistory |})
  = [js "s3"; js "abc123"; js "s1"].
Proof.
  rewrite (resort_is_identity sampleClock sampleHistory sampleHistory_dated).
  reflexivity.
Defined.


End PageExamples.

(** ** The history panel *)

Section PanelMore.

Import Types HistoryList.

Lemma truncateText_length (text : jsstring) (maxLength : nat) :
  List.length (truncateText text maxLength) <= maxLength + 3.
Proof.
  unfold truncateText.
  destruct (Nat.ltb maxLength (List.length text)) eqn:E.
  - rewrite length_app, length_firstn. simpl. lia.
  - apply Nat.ltb_ge in E. lia.
Qed.

Lemma getLastBotMessage_nonempty (item : ChatHistoryItem) :
  truthy (getLastBotMessage item) = true.
Proof.
  unfold getLastBotMessage.
  destruct (nth_error _ _) as [m|]; simpl; [|reflexivity].
  destruct (text m) as [|c t]; reflexivity.
Qed.

(** [truncateText] returns at most [maxLength + 3] code units, returns a
    text of at most [maxLength] code units unchanged, keeps the first
    [maxLength] code units in every case, and gives the same result when
    applied to its own result. *)
Theorem truncateText_bounds (text : jsstring) (maxLength : nat) :
  List.length (truncateText text maxLength) <= maxLength + 3
  /\ (List.length text <= maxLength -> truncateText text maxLength = text)
  /\ firstn maxLength (truncateText text maxLength) = firstn maxLength text
  /\ truncateText (truncateText text maxLength) maxLength = truncateText text maxLength.
Proof.
  unfold truncateText.
  destruct (Nat.ltb maxLength (List.length text)) eqn:E.
  - apply Nat.ltb_lt in E.
    assert (Hlen : List.length (firstn maxLength text) = maxLength)
      by (rewrite length_firstn; lia).
    assert (Hpre : firstn maxLength (firstn maxLength text ++ js "...")
                   = firstn maxLength text).
    { rewrite firstn_app, Hlen, Nat.sub_diag. simpl. rewrite app_nil_r.
      rewrite <- Hlen at 1. apply firstn_all. }
    repeat split.
    + rewrite length_app, Hlen. simpl. lia.
    + lia.
    + exact Hpre.
    + assert (Hlt : Nat.ltb maxLength (List.length (firstn maxLength text ++ js "...")) = true).
      { apply Nat.ltb_lt. rewrite length_app, Hlen. simpl. lia. }
      rewrite Hlt, Hpre. reflexivity.
  - assert (E' := E). apply Nat.ltb_ge in E'. repeat split; try lia.
    now rewrite E.
Qed.

(** The text [getLastBotMessage] returns is never empty.  It is the text
    of the session's last bot message when that text is not empty, and
    "Nouvelle conversation" when the session has no bot message or its last
    bot message is empty; user messages never supply it. *)
Theorem getLastBotMessage_cases (item : ChatHistoryItem) :
  truthy (getLastBotMessage item) = true
  /\ (Forall (fun m => role m = user) (messages item) ->
      getLastBotMessage item = msg_newConversation)
  /\ (forall earlier m later,
        messages item = earlier ++ m :: later ->
        role m = bot ->
        Forall (fun x => role x = user) later ->
        getLastBotMessage item
        = if truthy (text m) then text m else msg_newConversation).
Proof.
  assert (Hnone : forall l, Forall (fun m => role m = user) l -> filter isBot l = []).
  { induction 1 as [|x l Hx _ IH]; [reflexivity|].
    simpl. unfold isBot at 1. now rewrite Hx. }
  split; [| split].
  - exact (getLastBotMessage_nonempty item).
  - unfold getLastBotMessage. intro Hu. now rewrite (Hnone _ Hu).
  - unfold getLastBotMessage. intros pre m post -> Hm Hpost.
    assert (Hbot : isBot m = true) by (unfold isBot; now rewrite Hm).
    rewrite filter_app. simpl. rewrite Hbot, (Hnone _ Hpost).
    assert (E : List.length (filter isBot pre ++ [m]) - 1
                = List.length (filter isBot pre))
      by (rewrite length_app; simpl; lia).
    rewrite E, nth_error_app2, Nat.sub_diag by lia. reflexivity.
Qed.

(** The preview line of a session is never empty and never longer than 63
    code units. *)
Theorem preview_bounds (item : ChatHistoryItem) :
  truthy (preview item) = true
  /\ List.length (preview item) <= 63.
Proof.
  unfold preview. split.
  - pose proof (getLastBotMessage_nonempty item) as Hne.
    unfold truncateText.
    destruct (Nat.ltb defaultMaxLength (List.length (getLastBotMessage item)));
      [|exact Hne].
    destruct (firstn defaultMaxLength (getLastBotMessage item)); reflexivity.
  - exact (truncateText_length (getLastBotMessage item) defaultMaxLength).
Qed.

(** The label of a session is the end of its id: the last eight code
    units, or the whole id when it has fewer. *)
Theorem sessionLabel_is_suffix (item : ChatHistoryItem) :
  List.length (sessionLabel item) = Nat.min 8 (List.length (chat_id item))
  /\ exists front, chat_id item = front ++ sessionLabel item.
Proof.
  unfold sessionLabel. split.
  - rewrite length_skipn. lia.
  - exists (firstn (List.length (chat_id item) - 8) (chat_id item)).
    symmetry. apply firstn_skipn.
Qed.

End PanelMore.

(** ** The conversation view again *)

Section WindowMore.

Import ApiClient Types ChatWindow.

(** The send button and the handler agree: the button is disabled exactly
    in the states where a submit would change nothing. *)
Theorem send_button_matches_guard (s : Sys) :
  sendDisabled (ui s) = true <-> step Submit s = Some s.
Proof.
  unfold sendDisabled. simpl. split.
  - intro G. f_equal. now apply handleSend_refused.
  - intro E. injection E as E.
    destruct (negb (truthy (trim (message (ui s)))) || isSending (ui s)) eqn:G;
      [reflexivity|].
    apply orb_false_iff in G. destruct G as [G1 G2].
    apply negb_false_iff, truthy_true_iff in G1.
    destruct (handleSend_accepted s G1 G2) as [req [E1 _]].
    rewrite E1 in E. rewrite <- E in G2. discriminate.
Qed.

(** While a send waits, events other than its answer leave the record of
    calls to the parent and the pending send as they are. *)
Lemma waiting_keeps_notified (es : list Event) (s s' : Sys) :
  isSending (ui s) = true ->
  forallb notAnswer es = true ->
  run es s = Some s' ->
  notified s' = notified s.
Proof.
  revert s. induction es as [|e es IH]; intros s Hs Hes E; simpl in E.
  - now injection E as <-.
  - simpl in Hes. apply andb_true_iff in Hes. destruct Hes as [He Hes].
    destruct (waiting_step e s Hs He) as [s1 [E1 [Hs1 _]]].
    rewrite E1 in E. rewrite (IH s1 Hs1 Hes E).
    destruct e as [v | | h | n r]; try discriminate; simpl in E1; injection E1 as <-.
    + now destruct s as [w [shown input sending err] waiting told].
    + rewrite handleSend_refused; [reflexivity|]. rewrite Hs. apply orb_true_r.
    + now destruct s as [w [shown input sending err] waiting told], h.
Qed.

(** The parent's [onNewMessage] is called once per successful send, with
    the trimmed text and the reply, after the answer has arrived; a
    rejected send never calls it. *)
Theorem parent_told_on_success_only (s : Sys) (es : list Event) :
  isSending (ui s) = false ->
  inFlight s = [] ->
  trim (message (ui s)) <> [] ->
  forallb notAnswer es = true ->
  exists s2,
    run (Submit :: es) s = Some s2
    /\ notified s2 = notified s
    /\ (forall d, exists s3,
          step (Answer 0 (Fulfilled d)) s2 = Some s3
          /\ notified s3
             = notified s ++ [(trim (message (ui s)), ChatApi.reply d)])
    /\ (forall r, rejects r = true ->
          exists s3,
            step (Answer 0 r) s2 = Some s3 /\ notified s3 = notified s).
Proof.
  intros Hidle Hnone Hne Hq.
  destruct (handleSend_accepted s Hne Hidle) as [req [E1 _]].
  assert (Hs1 : isSending (ui (exec handleSend s)) = true) by now rewrite E1.
  destruct (waiting_run es (exec handleSend s) Hs1 Hq) as [s2 [E2 [_ [Hf2 _]]]].
  pose proof (waiting_keeps_notified es (exec handleSend s) s2 Hs1 Hq E2) as Hn2.
  rewrite E1 in Hf2, Hn2. simpl in Hf2, Hn2. rewrite Hnone in Hf2. simpl in Hf2.
  exists s2. split; [exact E2|]. split; [exact Hn2|]. split.
  - intro d. simpl. rewrite Hf2. simpl.
    eexists; split; [reflexivity|]. rewrite resume_fulfilled. simpl. now rewrite Hn2.
  - intros r Hr. simpl. rewrite Hf2. simpl.
    eexists; split; [reflexivity|].
    destruct (resume_rejected {| trimmedMessage := trim (message (ui s)) |} r
                (wake 0 s2) Hr) as [_ [_ [_ [_ H5]]]].
    rewrite H5. exact Hn2.
Qed.


(** The handlers of the view run to their end whatever the backend
    answers. *)
Theorem window_handlers_never_throw (s : Sys) :
  fst (handleSend s) = Returned tt
  /\ (forall k r, fst (handleSend_resume k r s) = Returned tt).
Proof.
  split.
  - destruct s as [w [shown input sending err] waiting told]; open_world w.
    all: unfold handleSend, bind, gets; simpl.
    all: destruct (negb (truthy (trim input)) || sending); reflexivity.
  - intros k r.
    destruct s as [w [shown input sending err] waiting told]; open_world w;
      destruct r as [d | status d |];
      try (destruct (status =? 401)%Z eqn:E);
      cbv -[Z.eqb js app errorMessage msg_sendFailed slice_0_minus1];
      rewrite ?E; reflexivity.
Qed.

(** The sample conversation: the answer is ["Reposez-vous."]. *)
Lemma parent_told_on_success_only_witness :
  exists s2,
    run [Submit; History (Some otherSession)] conversation = Some s2
    /\ exists s3,
         step (Answer 0 (Fulfilled {| ChatApi.reply := js "Reposez-vous." |})) s2 = Some s3
         /\ notified s3 = [(js "j'ai mal", js "Reposez-vous.")].
Proof.
  destruct (parent_told_on_success_only conversation [History (Some otherSession)]
              eq_refl eq_refl conversation_input_not_blank eq_refl)
    as [s2 [E [_ [Hok _]]]].
  exists s2. split; [exact E|].
  exact (Hok {| ChatApi.reply := js "Reposez-vous." |}).
Defined.

(** The sample conversation: the other session is shown while the call is
    pending, and the rejection takes that session's reply ["b"] away. *)
Lemma rollback_is_positional_witness :
  exists s3,
    run [Submit; History (Some otherSession); Answer 0 NoResponse] conversation = Some s3
    /\ currentMessages (ui s3) = [{| role := user; text := js "a" |}].
Proof.
  exact (rollback_is_positional conversation otherSession NoResponse
           eq_refl eq_refl conversation_input_not_blank eq_refl).
Defined.

End WindowMore.
